(** * A shopping cart priced in binary64 floats and Python decimals

    Shallow embedding of [solutions/shopping_cart.py] (class [ShoppingCart])
    and the properties of its pricing rules.

    The Python values the class handles are modelled as the code has them:
    - [float] is IEEE 754 binary64, here [spec_float] with [prec = 53] and
      [emax = 1024]; [+], [*], [<] and [<=] are the operations of
      [SpecFloat];
    - [str(x)] of a float is its shortest decimal representation that reads
      back as [x];
    - [decimal.Decimal] is a coefficient and a power of ten, or an infinity,
      or a NaN, with the arithmetic of the default context (28 significant
      digits, ties to even);
    - the dictionary [self.items] is an association list in insertion order,
      because the order of the entries is the order of the float additions
      of [sum].
    Arguments are floats, as the annotations of the methods say; an [int]
    argument (the tests pass quantities such as [1]) stands for the float
    of the same value, and the [int] 0 that [sum] returns on an empty cart
    for the float 0.0. *)

From Stdlib Require Import ZArith List String Bool Lia QArith Qround.
From Stdlib Require Import SpecFloat.
Import ListNotations.

Local Open Scope Z_scope.

(** ** Integer helpers: powers of ten, digit counts, rounded divisions *)

(** [10 ^ k] and [2 ^ k] for [k >= 0], and 1 below: a ratio is scaled by
    [pow k] on one side and [pow (- k)] on the other. *)
Definition pow10 (k : Z) : Z := 10 ^ Z.max 0 k.
Definition pow2 (k : Z) : Z := 2 ^ Z.max 0 k.

(** Number of decimal digits of [n] (0 for [n <= 0]), by repeated division;
    [fuel] bounds the number of divisions. *)
Fixpoint digits10_fuel (fuel : nat) (n : Z) : Z :=
  match fuel with
  | O => 0
  | S f => if n <? 1 then 0 else 1 + digits10_fuel f (n / 10)
  end.

Definition digits10 (n : Z) : Z := digits10_fuel (S (Z.to_nat (Z.log2 n))) n.

(** [n / d] rounded to the nearest integer, ties to the even one
    ([d > 0]). *)
Definition rne_div (n d : Z) : Z :=
  let q := n / d in
  match 2 * (n mod d) ?= d with
  | Lt => q
  | Gt => q + 1
  | Eq => if Z.even q then q else q + 1
  end.

(** [n / d] rounded to the nearest integer, ties away from zero for
    [n >= 0] ([d > 0]): ROUND_HALF_UP on a non-negative coefficient. *)
Definition rhu_div (n d : Z) : Z :=
  let q := n / d in
  if 2 * (n mod d) <? d then q else q + 1.

(** ** binary64 *)

Definition prec : Z := 53.
Definition emax : Z := 1024.

Definition float := spec_float.

Definition fzero : float := S754_zero false.
Definition fadd : float -> float -> float := SFadd prec emax.
Definition fmul : float -> float -> float := SFmul prec emax.
Definition flt : float -> float -> bool := SFltb.
Definition fle : float -> float -> bool := SFleb.
Definition is_float64 (x : float) : bool := valid_binary prec emax x.

Definition float_eqb (x y : float) : bool :=
  match x, y with
  | S754_zero a, S754_zero b => Bool.eqb a b
  | S754_infinity a, S754_infinity b => Bool.eqb a b
  | S754_nan, S754_nan => true
  | S754_finite a m e, S754_finite b n f =>
      Bool.eqb a b && Pos.eqb m n && Z.eqb e f
  | _, _ => false
  end.

(** Floor of the base-2 logarithm of [a / b], for [a, b > 0]. *)
Definition ilog2_ratio (a b : Z) : Z :=
  let l := Z.log2 a - Z.log2 b in
  if b * pow2 l <=? a * pow2 (- l) then l else l - 1.

(** The binary64 float nearest to [a / b] (ties to even), with sign [s];
    [a >= 0], [b > 0].  This is the reading of a decimal literal, of
    [float(str)] and of [float(Decimal)]. *)
Definition float_of_ratio (s : bool) (a b : Z) : float :=
  if a <=? 0 then S754_zero s
  else
    let e := Z.max (ilog2_ratio a b - 52) (-1074) in
    let m := rne_div (a * pow2 (- e)) (b * pow2 e) in
    let '(m, e) := if m =? 2 ^ 53 then (2 ^ 52, e + 1) else (m, e) in
    match m with
    | Zpos p => if e <=? emax - prec then S754_finite s p e
                else S754_infinity s
    | _ => S754_zero s
    end.

(** The float nearest to [c * 10 ^ k]. *)
Definition float_of_decimal (c k : Z) : float :=
  float_of_ratio (c <? 0) (Z.abs c * pow10 k) (pow10 (- k)).

(** ** Exceptions *)

Inductive exn : Type :=
| ValueError (msg : string)
| InvalidOperation
| DivisionByZero.

Inductive result (A : Type) : Type :=
| Ok (a : A)
| Raise (e : exn).

Arguments Ok {A} a.
Arguments Raise {A} e.

Definition bind {A B : Type} (r : result A) (f : A -> result B) : result B :=
  match r with
  | Ok a => f a
  | Raise e => Raise e
  end.

Notation "x <- r ;; k" := (bind r (fun x => k))
  (at level 61, r at next level, right associativity).

(** ** [str(x)] and [round(x, ndigits)] of a float *)

(** Floor of [m * 2 ^ e / 10 ^ k]. *)
Definition scaled_floor (m e k : Z) : Z :=
  (m * pow2 e * pow10 (- k)) / (pow2 (- e) * pow10 k).

(** The [p] with [10 ^ (p - 1) <= m * 2 ^ e < 10 ^ p], for [m > 0]. *)
Definition decade (m e : Z) : Z :=
  let i := scaled_floor m e 0 in
  if 1 <=? i then digits10 i
  else 1 - digits10 ((pow2 (- e) + m - 1) / m - 1).

(** The decimals [c * 10 ^ k] with [n] significant digits next to
    [x = m * 2 ^ e] that read back as [x]; of two, the nearer one. *)
Definition repr_try (m : positive) (e n : Z) : option (Z * Z) :=
  let k := decade (Zpos m) e - n in
  let lo := scaled_floor (Zpos m) e k in
  let hi := lo + 1 in
  let reads_back c :=
    float_eqb (float_of_decimal c k) (S754_finite false m e) in
  let side :=
    2 * Zpos m * pow2 e * pow10 (- k) ?= (lo + hi) * pow2 (- e) * pow10 k in
  match reads_back lo, reads_back hi with
  | true, true =>
      Some (match side with
            | Lt => lo
            | Gt => hi
            | Eq => if Z.even lo then lo else hi
            end, k)
  | true, false => Some (lo, k)
  | false, true => Some (hi, k)
  | false, false => None
  end.

(** Shortest first: 1 digit, then 2, ... up to 17, which always reads back
    for a binary64 value; past that the 17-digit floor is returned. *)
Fixpoint repr_search (fuel : nat) (m : positive) (e n : Z) : Z * Z :=
  match fuel with
  | O => (scaled_floor (Zpos m) e (decade (Zpos m) e - 17),
          decade (Zpos m) e - 17)
  | S f =>
      match repr_try m e n with
      | Some r => r
      | None => repr_search f m e (n + 1)
      end
  end.

Definition repr_digits (m : positive) (e : Z) : Z * Z := repr_search 17 m e 1.

(** What [str] prints for a float, as a number: sign, digits, power of
    ten; or [inf], [-inf], [nan]. *)
Inductive float_str : Type :=
| StrNum (neg : bool) (digits : Z) (exp : Z)
| StrInf (neg : bool)
| StrNan.

Definition str (x : float) : float_str :=
  match x with
  | S754_nan => StrNan
  | S754_infinity s => StrInf s
  | S754_zero s => StrNum s 0 0
  | S754_finite s m e => let '(c, k) := repr_digits m e in StrNum s c k
  end.

(** [round(x, ndigits)] on a float, [ndigits >= 0]: the float nearest to
    the multiple of [10 ^ - ndigits] nearest to the exact value of [x],
    ties to even; infinities and NaN are returned as they are. *)
Definition round (x : float) (ndigits : Z) : float :=
  match x with
  | S754_finite s m e =>
      float_of_ratio s
        (rne_div (Zpos m * pow2 e * pow10 ndigits) (pow2 (- e)))
        (pow10 ndigits)
  | _ => x
  end.

(** ** [decimal.Decimal] in the default context *)

(** A finite decimal is [coeff * 10 ^ exp]; the sign of a zero is not
    kept (no operation below tells [0] from [-0] before the result is a
    float again, and none of them builds [-0] from the values of a
    cart). *)
Inductive decimal : Type :=
| Dnum (coeff exp : Z)
| Dinf (neg : bool)
| Dnan.

(** [getcontext().prec] *)
Definition Dprec : Z := 28.

(** [Decimal(s)] for the string of a float: exact. *)
Definition Decimal (s : float_str) : decimal :=
  match s with
  | StrNum neg c k => Dnum (if neg then - c else c) k
  | StrInf neg => Dinf neg
  | StrNan => Dnan
  end.

(** Rounding of a result to the context precision, ties to even.  The
    exponent bounds of the context (10 ^ 999999 and 10 ^ -999999) are out
    of reach of sums and products of a few binary64 values and are left
    out. *)
Definition dec_fix (c k : Z) : decimal :=
  let d := digits10 (Z.abs c) in
  if d <=? Dprec then Dnum c k
  else
    let j := d - Dprec in
    let r := rne_div (Z.abs c) (pow10 j) in
    if r =? pow10 Dprec then Dnum (Z.sgn c * (r / 10)) (k + j + 1)
    else Dnum (Z.sgn c * r) (k + j).

Definition dec_neg (x : decimal) : decimal :=
  match x with
  | Dnum c k => Dnum (- c) k
  | Dinf s => Dinf (negb s)
  | Dnan => Dnan
  end.

Definition dec_add (x y : decimal) : result decimal :=
  match x, y with
  | Dnan, _ | _, Dnan => Ok Dnan
  | Dinf a, Dinf b => if Bool.eqb a b then Ok (Dinf a) else Raise InvalidOperation
  | Dinf a, Dnum _ _ => Ok (Dinf a)
  | Dnum _ _, Dinf b => Ok (Dinf b)
  | Dnum c1 k1, Dnum c2 k2 =>
      let k := Z.min k1 k2 in
      Ok (dec_fix (c1 * pow10 (k1 - k) + c2 * pow10 (k2 - k)) k)
  end.

Definition dec_sub (x y : decimal) : result decimal := dec_add x (dec_neg y).

Definition dec_mul (x y : decimal) : result decimal :=
  match x, y with
  | Dnan, _ | _, Dnan => Ok Dnan
  | Dinf a, Dinf b => Ok (Dinf (xorb a b))
  | Dinf a, Dnum c _ =>
      if c =? 0 then Raise InvalidOperation else Ok (Dinf (xorb a (c <? 0)))
  | Dnum c _, Dinf b =>
      if c =? 0 then Raise InvalidOperation else Ok (Dinf (xorb (c <? 0) b))
  | Dnum c1 k1, Dnum c2 k2 => Ok (dec_fix (c1 * c2) (k1 + k2))
  end.

(** Division as [Decimal.__truediv__] does it: a quotient of
    [prec + 1] digits or more, made odd in its last digit when a remainder
    is left, then rounded to the context. *)
Definition dec_div (x y : decimal) : result decimal :=
  match x, y with
  | Dnan, _ | _, Dnan => Ok Dnan
  | Dinf _, Dinf _ => Raise InvalidOperation
  | Dinf a, Dnum c _ => Ok (Dinf (xorb a (c <? 0)))
  | Dnum _ _, Dinf _ => Ok (Dnum 0 0)
  | Dnum c1 k1, Dnum c2 k2 =>
      if c2 =? 0 then
        Raise (if c1 =? 0 then InvalidOperation else DivisionByZero)
      else if c1 =? 0 then Ok (Dnum 0 (k1 - k2))
      else
        let shift :=
          digits10 (Z.abs c2) - digits10 (Z.abs c1) + Dprec + 1 in
        let n := Z.abs c1 * pow10 shift in
        let d := Z.abs c2 * pow10 (- shift) in
        let q := n / d in
        let q := if n mod d =? 0 then q
                 else if q mod 5 =? 0 then q + 1 else q in
        Ok (dec_fix (Z.sgn c1 * Z.sgn c2 * q) (k1 - k2 - shift))
  end.

(** [x < y]; a comparison with a NaN raises. *)
Definition dec_lt (x y : decimal) : result bool :=
  match x, y with
  | Dnan, _ | _, Dnan => Raise InvalidOperation
  | Dinf a, Dinf b => Ok (a && negb b)
  | Dinf a, Dnum _ _ => Ok a
  | Dnum _ _, Dinf b => Ok (negb b)
  | Dnum c1 k1, Dnum c2 k2 =>
      let k := Z.min k1 k2 in
      Ok (c1 * pow10 (k1 - k) <? c2 * pow10 (k2 - k))
  end.

(** [x.quantize(Decimal(1 E exp), rounding=ROUND_HALF_UP)]: [x] at the
    exponent [exp]; raises when [x] is infinite or when the result needs
    more than [prec] digits. *)
Definition quantize (x : decimal) (exp : Z) : result decimal :=
  match x with
  | Dnan => Ok Dnan
  | Dinf _ => Raise InvalidOperation
  | Dnum c k =>
      if c =? 0 then Ok (Dnum 0 exp)
      else if Dprec <? digits10 (Z.abs c) + k - exp then Raise InvalidOperation
      else
        let r := if exp <=? k then Z.abs c * pow10 (k - exp)
                 else rhu_div (Z.abs c) (pow10 (exp - k)) in
        if Dprec <? digits10 r then Raise InvalidOperation
        else Ok (Dnum (Z.sgn c * r) exp)
  end.

(** [float(x)] for a decimal. *)
Definition float_of_Decimal (x : decimal) : float :=
  match x with
  | Dnum c k => float_of_decimal c k
  | Dinf s => S754_infinity s
  | Dnan => S754_nan
  end.

(** ** The class [ShoppingCart] *)

Module ShoppingCart.

(** [TAX_RATE = 0.085]: the float that the literal reads as. *)
Definition TAX_RATE : float := float_of_decimal 85 (-3).

(** An entry of [self.items]: [{'price': float, 'quantity': float}]. *)
Record item : Type := { price : float; quantity : float }.

(** [self.discount] when set: [{'code': str, 'type': str, 'value': float}]. *)
Record discount_info : Type :=
  { code : string; type : string; value : float }.

(** The object: [self.items], a dictionary in insertion order, and
    [self.discount], [None] or the last discount applied. *)
Record cart : Type :=
  { items : list (string * item); discount : option discount_info }.

(** [__init__]: the empty cart. *)
Definition __init__ : cart := {| items := []; discount := None |}.

(** [self.items.get(name)] *)
Fixpoint lookup (name : string) (l : list (string * item)) : option item :=
  match l with
  | [] => None
  | (n, it) :: rest => if String.eqb n name then Some it else lookup name rest
  end.

(** [self.items[name]['quantity'] += quantity]: the entry keeps its place
    and its price. *)
Fixpoint add_quantity (name : string) (q : float) (l : list (string * item))
  : list (string * item) :=
  match l with
  | [] => []
  | (n, it) :: rest =>
      if String.eqb n name
      then (n, {| price := price it; quantity := fadd (quantity it) q |}) :: rest
      else (n, it) :: add_quantity name q rest
  end.

(** [add_item]: the two checks, in the order of the source, come before
    any write to [self.items]; a raise leaves the object as it was. *)
Definition add_item (self : cart) (name : string) (price quantity : float)
  : result unit * cart :=
  if flt price fzero then
    (Raise (ValueError "Price cannot be negative"), self)
  else if fle quantity fzero then
    (Raise (ValueError "Quantity must be greater than zero"), self)
  else
    match lookup name (items self) with
    | Some _ =>
        (Ok tt, {| items := add_quantity name quantity (items self);
                   discount := discount self |})
    | None =>
        (Ok tt, {| items := items self ++
                             [(name, {| price := price; quantity := quantity |})];
                   discount := discount self |})
    end.

(** [remove_item]: [self.items.pop(name, None)]. *)
Definition remove_item (self : cart) (name : string) : result unit * cart :=
  (Ok tt,
   {| items := filter (fun p => negb (String.eqb (fst p) name)) (items self);
      discount := discount self |}).

(** [get_item_count]: [len(self.items)]. *)
Definition get_item_count (self : cart) : Z := Z.of_nat (List.length (items self)).

(** [_calculate_raw_subtotal]: [sum] adds the float products from left to
    right, starting from 0.  (From Python 3.12 on [sum] carries a
    compensation term for floats; with a single entry it is zero.) *)
Definition _calculate_raw_subtotal (self : cart) : float :=
  fold_left (fun acc p => fadd acc (fmul (price (snd p)) (quantity (snd p))))
            (items self) fzero.

(** [get_subtotal]: [round(self._calculate_raw_subtotal(), 2)]. *)
Definition get_subtotal (self : cart) : float :=
  round (_calculate_raw_subtotal self) 2.

(** [apply_discount]: the new dictionary replaces [self.discount]. *)
Definition apply_discount (self : cart) (code type : string) (value : float)
  : result unit * cart :=
  (Ok tt,
   {| items := items self;
      discount := Some {| code := code; type := type; value := value |} |}).

(** The discount step of [get_total]. *)
Definition discounted (subtotal : decimal) (d : option discount_info)
  : result decimal :=
  match d with
  | Some d =>
      if String.eqb (type d) "percentage" then
        let discount_value := Decimal (str (value d)) in
        r <- dec_div discount_value (Dnum 100 0) ;;
        discount_amount <- dec_mul subtotal r ;;
        dec_sub subtotal discount_amount
      else if String.eqb (type d) "fixed" then
        dec_sub subtotal (Decimal (str (value d)))
      else Ok subtotal
  | None => Ok subtotal
  end.

(** [get_total] *)
Definition get_total (self : cart) : result float :=
  let subtotal := Decimal (str (_calculate_raw_subtotal self)) in
  subtotal <- discounted subtotal (discount self) ;;
  negative <- dec_lt subtotal (Dnum 0 0) ;;
  let subtotal := if negative : bool then Dnum 0 0 else subtotal in
  let tax_rate := Decimal (str TAX_RATE) in
  one_plus <- dec_add (Dnum 1 0) tax_rate ;;
  total <- dec_mul subtotal one_plus ;;
  rounded_total <- quantize total (-2) ;;
  Ok (float_of_Decimal rounded_total).

(** The mutators as calls on an object: the state after the call (a
    raise leaves it unchanged, see [add_item]). *)
Inductive call : Type :=
| AddItem (name : string) (price quantity : float)
| RemoveItem (name : string)
| ApplyDiscount (code type : string) (value : float).

Definition run_call (self : cart) (c : call) : result unit * cart :=
  match c with
  | AddItem n p q => add_item self n p q
  | RemoveItem n => remove_item self n
  | ApplyDiscount c t v => apply_discount self c t v
  end.

Definition run (self : cart) (cs : list call) : cart :=
  fold_left (fun s c => snd (run_call s c)) cs self.

End ShoppingCart.

Import ShoppingCart.
Local Open Scope string_scope.
Local Open Scope Z_scope.

(** * Vocabulary of the statements *)

(** ** Floats and carts *)

(** The float a decimal literal [c E k] of a Python source reads as. *)
Definition float_lit (c k : Z) : float := float_of_decimal c k.

(** A float that is [> 0] with its exponent in the binary64 range: what a
    stored quantity is. *)
Definition positive_float (x : float) : Prop :=
  x = S754_infinity false \/
  exists m e, x = S754_finite false m e /\ -1074 <= e.

(** A float that is zero, or finite and positive. *)
Definition nonneg_finite (x : float) : Prop :=
  match x with
  | S754_zero _ | S754_finite false _ _ => True
  | _ => False
  end.

(** A finite float of magnitude below [10 ^ b]. *)
Definition below_pow10 (b : Z) (x : float) : Prop :=
  match x with
  | S754_zero _ => True
  | S754_finite _ m e => Zpos m * pow2 e < 10 ^ b * pow2 (- e)
  | _ => False
  end.

(** The exact value of a finite float. *)
Definition exact_value (x : float) : Q :=
  match x with
  | S754_finite s m e =>
      (inject_Z (if s then Zneg m else Zpos m) * Qpower 2 e)%Q
  | _ => 0%Q
  end.

(** The prices and quantities of a cart, as exact values. *)
Definition exact_items (self : cart) : list (Q * Q) :=
  map (fun p => (exact_value (price (snd p)), exact_value (quantity (snd p))))
      (items self).

(** The discount of the last [apply_discount] among the calls, [d0] when
    there is none. *)
Definition last_discount (cs : list call) (d0 : option discount_info)
  : option discount_info :=
  fold_left (fun d c =>
               match c with
               | ApplyDiscount c t v =>
                   Some {| code := c; type := t; value := v |}
               | _ => d
               end) cs d0.

(** The call that applies a stored discount again. *)
Definition discount_call (d : discount_info) : call :=
  ApplyDiscount (code d) (type d) (value d).

(** The floats of a call are binary64 values. *)
Definition call_floats (c : call) : Prop :=
  match c with
  | AddItem _ p q => is_float64 p = true /\ is_float64 q = true
  | _ => True
  end.

(** No [add_item] argument of the call is a NaN. *)
Definition call_no_nan (c : call) : Prop :=
  match c with
  | AddItem _ p q => p <> S754_nan /\ q <> S754_nan
  | _ => True
  end.

(** Every stored item has [price >= 0] and [quantity > 0]. *)
Definition store_invariant (self : cart) : Prop :=
  forall name it, lookup name (items self) = Some it ->
    fle fzero (price it) = true /\ flt fzero (quantity it) = true.

(** What the proof of the invariant carries for one item. *)
Definition item_ok (it : item) : Prop :=
  fle fzero (price it) = true /\ positive_float (quantity it).

(** ** The history of a name *)

(** Whether [name] is stored: [name in self.items]. *)
Definition stored (name : string) (self : cart) : bool :=
  match lookup name (items self) with
  | Some _ => true
  | None => false
  end.

(** Whether a call is an [add_item] that passes both checks. *)
Definition accepted (p q : float) : bool :=
  negb (flt p fzero) && negb (fle q fzero).

(** Whether [name] is stored after the calls [cs], read off the calls: the
    last accepted [add_item] or the last [remove_item] of the name decides,
    and [b] when there is none. *)
Definition live (name : string) (cs : list call) (b : bool) : bool :=
  fold_left (fun b c =>
               match c with
               | AddItem n p q =>
                   if String.eqb n name && accepted p q then true else b
               | RemoveItem n => if String.eqb n name then false else b
               | ApplyDiscount _ _ _ => b
               end) cs b.

(** The item name a call is about. *)
Definition call_name (c : call) : option string :=
  match c with
  | AddItem n _ _ | RemoveItem n => Some n
  | ApplyDiscount _ _ _ => None
  end.

(** The names the calls mention, with repetitions. *)
Definition call_names (cs : list call) : list string :=
  flat_map (fun c => match call_name c with Some n => [n] | None => [] end) cs.

(** No call of [cs] removes [name]. *)
Definition never_removed (name : string) (cs : list call) : Prop :=
  Forall (fun c => c <> RemoveItem name) cs.

(** The quantity stored under [name] after the calls [cs], from [q0], as
    long as the name is not removed: the quantities of the accepted
    [add_item] calls on the name are added one by one, in the order of the
    calls. *)
Definition added_quantity (name : string) (cs : list call) (q0 : float)
  : float :=
  fold_left (fun acc c =>
               match c with
               | AddItem n p q =>
                   if String.eqb n name && accepted p q then fadd acc q
                   else acc
               | _ => acc
               end) cs q0.

(** ** Classes of floats *)

(** A float that is not a NaN and not below zero: a zero of either sign, a
    positive finite float, or [+inf]. *)
Definition nonneg_float (x : float) : Prop :=
  match x with
  | S754_zero _ | S754_finite false _ _ | S754_infinity false => True
  | _ => False
  end.

(** The float [2 ^ 46], 70368744177664.0. *)
Definition two_pow_46 : float := S754_finite false 4503599627370496 (-6).

(** A finite float of magnitude [10 ^ b] or more. *)
Definition at_least_pow10 (b : Z) (x : float) : Prop :=
  match x with
  | S754_finite false m e => 10 ^ b * pow2 (- e) <= Zpos m * pow2 e
  | _ => False
  end.

(** ** The number [str] prints *)

(** The number a finite decimal [c E k] stands for. *)
Definition dec_value (c k : Z) : Q :=
  (inject_Z (c * pow10 k) / inject_Z (pow10 (- k)))%Q.

(** The number [str(x)] reads as, for a finite float. *)
Definition printed_value (x : float) : Q :=
  match str x with
  | StrNum neg c k => dec_value (if neg then - c else c) k
  | _ => 0%Q
  end.

(** ** Decimals *)

(** A decimal that is [>= 0]. *)
Definition dec_nonneg (d : decimal) : Prop :=
  match d with
  | Dnum c _ => 0 <= c
  | Dinf s => s = false
  | Dnan => False
  end.

(** [c1 * 10 ^ k1 <= c2 * 10 ^ k2] *)
Definition num_le (c1 k1 c2 k2 : Z) : Prop :=
  c1 * pow10 (k1 - k2) <= c2 * pow10 (k2 - k1).

(** A non-negative integer rounded to 28 significant digits. *)
Definition round_mag (x : Z) : Z :=
  let d := digits10 x in
  if d <=? Dprec then x
  else rne_div x (10 ^ (d - Dprec)) * 10 ^ (d - Dprec).

(** An integer rounded to 28 significant digits. *)
Definition round_sig (x : Z) : Z := Z.sgn x * round_mag (Z.abs x).

(** [get_total] after its discount step: clamp, tax, rounding. *)
Definition taxed_total (subtotal : decimal) : result float :=
  negative <- dec_lt subtotal (Dnum 0 0) ;;
  let subtotal := if negative : bool then Dnum 0 0 else subtotal in
  total <- dec_mul subtotal (Dnum 1085 (-3)) ;;
  rounded_total <- quantize total (-2) ;;
  Ok (float_of_Decimal rounded_total).

(** ** Parts of [float_of_ratio] *)

(** [a / b >= 2 ^ k] *)
Definition ratio_ge_pow2 (a b k : Z) : Prop := b * pow2 k <= a * pow2 (- k).

(** The exponent [float_of_ratio] rounds at. *)
Definition fl_exp (a b : Z) : Z := Z.max (ilog2_ratio a b - 52) (-1074).

(** The mantissa it rounds to. *)
Definition fl_man (a b : Z) : Z :=
  rne_div (a * pow2 (- fl_exp a b)) (b * pow2 (fl_exp a b)).

(** Mantissa and exponent of the float, after the carry of a mantissa that
    rounds up to [2 ^ 53]. *)
Definition fl_parts (a b : Z) : Z * Z :=
  if fl_man a b =? 2 ^ 53 then (2 ^ 52, fl_exp a b + 1)
  else (fl_man a b, fl_exp a b).

(** ** The pricing rules in exact arithmetic

    The rules as the specification words them, on exact rationals: the
    subtotal is the exact sum of the products, the discount and the tax are
    exact, and the rounding to cents is half-up. *)

Module Spec.

Local Open Scope Q_scope.

Inductive discount : Type :=
| Percentage (v : Q)
| Fixed (v : Q).

Definition rawSubtotal (l : list (Q * Q)) : Q :=
  fold_right (fun p acc => fst p * snd p + acc) 0 l.

(** Rounding to 2 decimal places, the midpoint going up in magnitude. *)
Definition round_half_up (x : Q) : Q :=
  if Qle_bool 0 x
  then inject_Z (Qfloor (x * 100 + (1 # 2))) / 100
  else - (inject_Z (Qfloor (- x * 100 + (1 # 2))) / 100).

Definition subtotal (l : list (Q * Q)) : Q := round_half_up (rawSubtotal l).

Definition total (l : list (Q * Q)) (d : option discount) : Q :=
  let s := rawSubtotal l in
  let s := match d with
           | Some (Percentage v) => s - s * (v / 100)
           | Some (Fixed v) => s - v
           | None => s
           end in
  let s := if Qle_bool 0 s then s else 0 in
  round_half_up (s * (1 + (85 # 1000))).

End Spec.

(** ** Carts of the examples *)

(** Three units at 0.70 and 1.10 off: [0.7 * 3] is the float
    2.0999999999999996. *)
Definition cart_three_at_070 : cart :=
  run __init__ [AddItem "A" (float_lit 70 (-2)) (float_lit 3 0);
            ApplyDiscount "OFF" "fixed" (float_lit 110 (-2))].

(** Three units at 0.3333333333333333: the float product is rounded up
    to 1.0, exactly. *)
Definition cart_three_thirds : cart :=
  run __init__ [AddItem "A" (float_lit 3333333333333333 (-16)) (float_lit 3 0)].

(** Prices and discount that are integers, so that the floats are the
    numbers written: [134217729 * 134217729] is [2 ^ 54 + 2 ^ 28 + 1],
    and the float product drops the final 1. *)
Definition cart_wide_product : cart :=
  run __init__ [AddItem "A" (float_lit 134217729 0) (float_lit 134217729 0);
            ApplyDiscount "OFF" "fixed" (float_lit 18014398777917436 0)].

(** Half a unit at 0.25: the raw subtotal is the float 0.125, exactly. *)
Definition cart_half_at_025 : cart :=
  run __init__ [AddItem "A" (float_lit 25 (-2)) (float_lit 5 (-1))].

(** One unit at 2.675, a float just below 2.675. *)
Definition cart_one_at_2675 : cart :=
  run __init__ [AddItem "A" (float_lit 2675 (-3)) (float_lit 1 0)].

(** One item of 100.00 and a fixed discount of -0.001. *)
Definition cart_tiny_negative : cart :=
  run __init__ [AddItem "Item" (float_lit 10000 (-2)) (float_lit 1 0);
            ApplyDiscount "NEG" "fixed" (float_lit (-1) (-3))].

(** Two apples at 1.50, the first call of several tests. *)
Definition apple : call :=
  AddItem "Apple" (float_lit 150 (-2)) (float_lit 2 0).

(** The cart of [test_full_shopping_scenario]. *)
Definition cart_full_scenario : cart :=
  run __init__ [AddItem "Laptop" (float_lit 99999 (-2)) (float_lit 1 0);
            AddItem "Mouse" (float_lit 2999 (-2)) (float_lit 2 0);
            AddItem "Keyboard" (float_lit 7999 (-2)) (float_lit 1 0);
            ApplyDiscount "TECH15" "percentage" (float_lit 15 0)].

(** * Proofs *)

(** The arithmetic is evaluated by [vm_compute] on closed inputs only. *)
Arguments pow10 : simpl never.
Arguments pow2 : simpl never.
Arguments digits10 : simpl never.
Arguments rne_div : simpl never.
Arguments rhu_div : simpl never.
Arguments float_of_ratio : simpl never.
Arguments float_of_decimal : simpl never.
Arguments repr_digits : simpl never.
Arguments str : simpl never.
Arguments round : simpl never.
Arguments dec_fix : simpl never.
Arguments fadd : simpl never.
Arguments fmul : simpl never.
Arguments TAX_RATE : simpl never.

(** ** The item store *)

Section ItemStore.

Implicit Types (l : list (string * item)) (name n : string) (self : cart).

Lemma lookup_app_None name l l' :
  lookup name l = None -> lookup name (l ++ l') = lookup name l'.
Proof.
  induction l as [|[k it] l IH]; simpl; [reflexivity|].
  destruct (String.eqb k name); [discriminate | exact IH].
Qed.

Lemma lookup_add_quantity_same name q l it :
  lookup name l = Some it ->
  lookup name (add_quantity name q l) =
    Some {| price := price it; quantity := fadd (quantity it) q |}.
Proof.
  induction l as [|[k i] l IH]; simpl; [discriminate|].
  destruct (String.eqb k name) eqn:E; simpl; rewrite E.
  - intros [= ->]. reflexivity.
  - exact IH.
Qed.

Lemma lookup_add_quantity_other name n q l :
  n <> name -> lookup n (add_quantity name q l) = lookup n l.
Proof.
  intros Hn. induction l as [|[k i] l IH]; simpl; [reflexivity|].
  destruct (String.eqb k name) eqn:E; simpl.
  - apply String.eqb_eq in E. subst k.
    destruct (String.eqb name n) eqn:E'; [|reflexivity].
    apply String.eqb_eq in E'. congruence.
  - destruct (String.eqb k n); [reflexivity | exact IH].
Qed.

Lemma keys_add_quantity name q l :
  map fst (add_quantity name q l) = map fst l.
Proof.
  induction l as [|[k i] l IH]; simpl; [reflexivity|].
  destruct (String.eqb k name); simpl; [reflexivity | now rewrite IH].
Qed.

Lemma lookup_None_keys name l : lookup name l = None <-> ~ In name (map fst l).
Proof.
  induction l as [|[k i] l IH]; simpl.
  - tauto.
  - destruct (String.eqb k name) eqn:E.
    + apply String.eqb_eq in E. split; [discriminate | tauto].
    + apply String.eqb_neq in E. tauto.
Qed.

Lemma lookup_filter_same name l :
  lookup name (filter (fun p => negb (String.eqb (fst p) name)) l) = None.
Proof.
  induction l as [|[k i] l IH]; simpl; [reflexivity|].
  destruct (String.eqb k name) eqn:E; simpl; [exact IH | now rewrite E].
Qed.

Lemma lookup_filter_other name n l :
  n <> name ->
  lookup n (filter (fun p => negb (String.eqb (fst p) name)) l) = lookup n l.
Proof.
  intros Hn. induction l as [|[k i] l IH]; simpl; [reflexivity|].
  destruct (String.eqb k name) eqn:E; simpl.
  - apply String.eqb_eq in E. subst k.
    destruct (String.eqb name n) eqn:E'; [|exact IH].
    apply String.eqb_eq in E'. congruence.
  - destruct (String.eqb k n); [reflexivity | exact IH].
Qed.

Lemma filter_absent name l :
  lookup name l = None ->
  filter (fun p => negb (String.eqb (fst p) name)) l = l.
Proof.
  induction l as [|[k i] l IH]; simpl; [reflexivity|].
  destruct (String.eqb k name); simpl; [discriminate|].
  intros H. now rewrite IH.
Qed.

(** The keys of [self.items] stay distinct, as in a dictionary. *)
Lemma run_call_keys_NoDup self c :
  NoDup (map fst (items self)) ->
  NoDup (map fst (items (snd (run_call self c)))).
Proof.
  intros H. destruct c as [n p q|n|cd t v]; simpl.
  - unfold add_item.
    destruct (flt p fzero); [exact H|].
    destruct (fle q fzero); [exact H|].
    destruct (lookup n (items self)) eqn:E; simpl.
    + now rewrite keys_add_quantity.
    + rewrite map_app. simpl.
      apply NoDup_app; [exact H | repeat constructor; intros [] | ].
      intros x Hx [<-|[]]. now apply lookup_None_keys in E.
  - induction (items self) as [|[k i] l IH]; simpl; [constructor|].
    inversion H as [|? ? Hk Hl]; subst.
    destruct (String.eqb k n); simpl; [now apply IH|].
    constructor; [|now apply IH].
    intros Hin. apply Hk. clear - Hin.
    induction l as [|[k' i'] l IH]; simpl in *; [exact Hin|].
    destruct (String.eqb k' n); simpl in *; tauto.
  - exact H.
Qed.

Lemma run_keys_NoDup cs : NoDup (map fst (items (run __init__ cs))).
Proof.
  unfold run.
  assert (G : forall self, NoDup (map fst (items self)) ->
    NoDup (map fst (items (fold_left (fun s c => snd (run_call s c)) cs self)))).
  { induction cs as [|c cs IH]; simpl; intros self H; [exact H|].
    apply IH. now apply run_call_keys_NoDup. }
  apply G. constructor.
Qed.

End ItemStore.

(** ** Signs through the decimal steps of [get_total] *)

Lemma pow10_pos k : 0 < pow10 k.
Proof. unfold pow10. apply Z.pow_pos_nonneg; lia. Qed.

Lemma pow2_pos k : 0 < pow2 k.
Proof. unfold pow2. apply Z.pow_pos_nonneg; lia. Qed.

Lemma rne_div_nonneg n d : 0 <= n -> 0 < d -> 0 <= rne_div n d.
Proof.
  intros Hn Hd. unfold rne_div.
  pose proof (Z.div_pos n d Hn Hd).
  destruct (2 * (n mod d) ?= d); [destruct (Z.even (n / d))| |]; lia.
Qed.

Lemma rhu_div_nonneg n d : 0 <= n -> 0 < d -> 0 <= rhu_div n d.
Proof.
  intros Hn Hd. unfold rhu_div.
  pose proof (Z.div_pos n d Hn Hd).
  destruct (2 * (n mod d) <? d); lia.
Qed.

Lemma dec_fix_nonneg c k : 0 <= c -> dec_nonneg (dec_fix c k).
Proof.
  intros Hc. unfold dec_fix.
  destruct (digits10 (Z.abs c) <=? Dprec); [exact Hc|].
  set (j := digits10 (Z.abs c) - Dprec).
  pose proof (rne_div_nonneg (Z.abs c) (pow10 j) (Z.abs_nonneg c) (pow10_pos j)) as Hr.
  destruct (rne_div (Z.abs c) (pow10 j) =? pow10 Dprec); simpl.
  - apply Z.mul_nonneg_nonneg; [lia|]. apply Z.div_pos; lia.
  - apply Z.mul_nonneg_nonneg; lia.
Qed.

Lemma clamp_nonneg s b :
  dec_lt s (Dnum 0 0) = Ok b ->
  dec_nonneg (if b then Dnum 0 0 else s).
Proof.
  destruct b; [intros _; simpl; lia|].
  destruct s as [c k|neg|]; simpl; [| |discriminate].
  - intros [= H]. apply Z.ltb_ge in H.
    pose proof (pow10_pos (k - Z.min k 0)). nia.
  - intros [= ->]. reflexivity.
Qed.

Lemma quantize_nonneg d exp r :
  dec_nonneg d -> quantize d exp = Ok r ->
  exists c, r = Dnum c exp /\ 0 <= c.
Proof.
  destruct d as [c k|neg|]; simpl; [|discriminate|tauto].
  intros Hc.
  destruct (c =? 0); [intros [= <-]; exists 0; split; [reflexivity|lia]|].
  destruct (Dprec <? digits10 (Z.abs c) + k - exp); [discriminate|].
  match goal with |- context [digits10 ?x] => set (r' := x) end.
  destruct (Dprec <? digits10 r'); [discriminate|].
  intros [= <-]. exists (Z.sgn c * r'). split; [reflexivity|].
  apply Z.mul_nonneg_nonneg; [lia|]. unfold r'.
  destruct (exp <=? k).
  - pose proof (pow10_pos (k - exp)). nia.
  - apply rhu_div_nonneg; [lia | apply pow10_pos].
Qed.

Lemma float_of_ratio_nonneg a b : fle fzero (float_of_ratio false a b) = true.
Proof.
  unfold float_of_ratio.
  destruct (a <=? 0); [reflexivity|].
  match goal with |- context [rne_div ?x ?y] => generalize (rne_div x y) end.
  intros m.
  destruct (m =? 2 ^ 53).
  - simpl. destruct (_ <=? _); reflexivity.
  - destruct m; try reflexivity.
    destruct (_ <=? _); reflexivity.
Qed.

Lemma float_of_decimal_nonneg c k :
  0 <= c -> fle fzero (float_of_decimal c k) = true.
Proof.
  intros Hc. unfold float_of_decimal.
  replace (c <? 0) with false by (symmetry; apply Z.ltb_ge; exact Hc).
  apply float_of_ratio_nonneg.
Qed.

(** [Decimal('1') + Decimal(str(TAX_RATE))] is [Decimal('1.085')]. *)
Lemma one_plus_tax_rate :
  dec_add (Dnum 1 0) (Decimal (str TAX_RATE)) = Ok (Dnum 1085 (-3)).
Proof. vm_compute. reflexivity. Qed.

Lemma get_total_steps self :
  get_total self =
    (s <- discounted (Decimal (str (_calculate_raw_subtotal self)))
                     (discount self) ;;
     taxed_total s).
Proof.
  unfold get_total, taxed_total.
  destruct (discounted (Decimal (str (_calculate_raw_subtotal self)))
                       (discount self)) as [s|]; cbn [bind]; [|reflexivity].
  destruct (dec_lt s (Dnum 0 0)) as [b|]; cbn [bind]; [|reflexivity].
  rewrite one_plus_tax_rate. reflexivity.
Qed.

Lemma taxed_total_nonneg s t :
  taxed_total s = Ok t -> fle fzero t = true.
Proof.
  unfold taxed_total.
  destruct (dec_lt s (Dnum 0 0)) as [b|] eqn:Hlt; cbn [bind]; [|discriminate].
  apply clamp_nonneg in Hlt.
  destruct (if b then Dnum 0 0 else s) as [c k|neg|]; cbn [dec_nonneg] in Hlt;
    [| subst neg; cbn; discriminate | tauto].
  cbn [dec_mul bind].
  pose proof (dec_fix_nonneg (c * 1085) (k + -3) ltac:(lia)) as Hf.
  destruct (quantize (dec_fix (c * 1085) (k + -3)) (-2)) as [r|] eqn:Hq;
    cbn [bind]; [|discriminate].
  destruct (quantize_nonneg _ _ _ Hf Hq) as (c' & -> & Hc').
  intros [= <-]. cbn [float_of_Decimal]. now apply float_of_decimal_nonneg.
Qed.

(** ** The two branches of a valid [add_item] *)

Lemma add_item_existing self name p q it :
  lookup name (items self) = Some it ->
  flt p fzero = false -> fle q fzero = false ->
  add_item self name p q =
    (Ok tt, {| items := add_quantity name q (items self);
               discount := discount self |}).
Proof.
  intros Hl Hp Hq. unfold add_item. now rewrite Hp, Hq, Hl.
Qed.

Lemma add_item_new self name p q :
  lookup name (items self) = None ->
  flt p fzero = false -> fle q fzero = false ->
  add_item self name p q =
    (Ok tt, {| items := items self ++ [(name, {| price := p; quantity := q |})];
               discount := discount self |}).
Proof.
  intros Hl Hp Hq. unfold add_item. now rewrite Hp, Hq, Hl.
Qed.

(** ** The discount slot *)

Lemma run_app self cs cs' : run self (cs ++ cs') = run (run self cs) cs'.
Proof. unfold run. apply fold_left_app. Qed.

Lemma run_call_discount self c :
  discount (snd (run_call self c)) = last_discount [c] (discount self).
Proof.
  destruct c as [n p q|n|cd t v]; cbn; try reflexivity.
  unfold add_item.
  destruct (flt p fzero); [reflexivity|].
  destruct (fle q fzero); [reflexivity|].
  destruct (lookup n (items self)); reflexivity.
Qed.

Lemma run_discount cs : forall self,
  discount (run self cs) = last_discount cs (discount self).
Proof.
  induction cs as [|c cs IH]; intros self; [reflexivity|].
  change (run self (c :: cs)) with (run (snd (run_call self c)) cs).
  rewrite IH, run_call_discount. reflexivity.
Qed.

Lemma run_discounts_items self ds :
  items (run self (map discount_call ds)) = items self.
Proof.
  revert self. induction ds as [|d ds IH]; intros self; [reflexivity|].
  cbn [map]. change (run self (discount_call d :: map discount_call ds))
    with (run (snd (run_call self (discount_call d))) (map discount_call ds)).
  now rewrite IH.
Qed.

(** ** Positive floats and their sums *)

Section PositiveFloats.

Lemma digits2_pos_log2 p : Zpos (digits2_pos p) = Z.log2 (Zpos p) + 1.
Proof.
  assert (H : forall q, digits2_pos q = Pos.size q).
  { induction q; cbn; congruence. }
  destruct p; cbn [digits2_pos Z.log2]; rewrite ?H; lia.
Qed.

Lemma shr_1_m mrs : 0 <= shr_m mrs -> shr_m (shr_1 mrs) = Z.div2 (shr_m mrs).
Proof.
  destruct mrs as [m r s]. cbn [shr_m].
  destruct m as [|[p|p|]|p]; cbn; try reflexivity; lia.
Qed.

Lemma iter_shr_1_m p : forall mrs,
  0 <= shr_m mrs ->
  shr_m (iter_pos shr_1 p mrs) = Z.shiftr (shr_m mrs) (Zpos p).
Proof.
  induction p as [p IH|p IH|]; intros mrs Hm; cbn [iter_pos].
  - assert (H1 : 0 <= shr_m (shr_1 mrs)).
    { rewrite shr_1_m by exact Hm. apply Z.div2_nonneg. exact Hm. }
    assert (H2 : 0 <= shr_m (iter_pos shr_1 p (shr_1 mrs))).
    { rewrite IH by exact H1. apply Z.shiftr_nonneg. exact H1. }
    rewrite IH, IH, shr_1_m by assumption.
    rewrite Z.div2_spec, !Z.shiftr_shiftr by lia.
    f_equal. lia.
  - assert (H2 : 0 <= shr_m (iter_pos shr_1 p mrs)).
    { rewrite IH by exact Hm. apply Z.shiftr_nonneg. exact Hm. }
    rewrite IH, IH by assumption.
    rewrite Z.shiftr_shiftr by lia. f_equal. lia.
  - rewrite shr_1_m by exact Hm. apply Z.div2_spec.
Qed.

Lemma shr_record_of_loc_m m l : shr_m (shr_record_of_loc m l) = m.
Proof. destruct l as [|[]]; reflexivity. Qed.

(** The shift of the rounding keeps a positive mantissa positive when the
    exponent is not below the smallest one: at most the digits past the
    53rd are dropped. *)
Lemma shr_fexp_positive m e l :
  0 < m -> -1074 <= e ->
  0 < shr_m (fst (shr_fexp prec emax m e l)) /\
  -1074 <= snd (shr_fexp prec emax m e l).
Proof.
  intros Hm He. unfold shr_fexp, shr.
  assert (Hd : Zdigits2 m = Z.log2 m + 1).
  { destruct m as [|p|p]; try lia. apply digits2_pos_log2. }
  assert (Hf : fexp prec emax (Zdigits2 m + e) =
               Z.max (Zdigits2 m + e - 53) (-1074)) by reflexivity.
  destruct (fexp prec emax (Zdigits2 m + e) - e) as [|p|p] eqn:Hn;
    cbn [fst snd]; rewrite ?shr_record_of_loc_m; try (split; lia).
  assert (Hp : Zpos p = Z.log2 m + 1 - 53) by lia.
  split; [|lia].
  rewrite iter_shr_1_m by (rewrite shr_record_of_loc_m; lia).
  rewrite shr_record_of_loc_m, Z.shiftr_div_pow2 by lia.
  pose proof (Z.log2_spec m Hm) as [Hlo _].
  apply Z.div_str_pos. split; [apply Z.pow_pos_nonneg; lia|].
  apply Z.le_trans with (2 ^ Z.log2 m); [|exact Hlo].
  apply Z.pow_le_mono_r; lia.
Qed.

Lemma round_nearest_even_ge m l : m <= round_nearest_even m l.
Proof.
  destruct l as [|[]]; cbn; try lia. destruct (Z.even m); lia.
Qed.

Lemma binary_round_aux_positive m e l :
  0 < m -> -1074 <= e ->
  positive_float (binary_round_aux prec emax false m e l).
Proof.
  intros Hm He. unfold binary_round_aux.
  destruct (shr_fexp_positive m e l Hm He) as [Hm1 He1].
  destruct (shr_fexp prec emax m e l) as [mrs1 e1]. cbn [fst snd] in *.
  set (m2 := round_nearest_even (shr_m mrs1) (loc_of_shr_record mrs1)).
  assert (Hm2 : 0 < m2).
  { pose proof (round_nearest_even_ge (shr_m mrs1) (loc_of_shr_record mrs1)).
    unfold m2. lia. }
  destruct (shr_fexp_positive m2 e1 loc_Exact Hm2 He1) as [Hm3 He3].
  destruct (shr_fexp prec emax m2 e1 loc_Exact) as [mrs3 e3].
  cbn [fst snd] in *.
  destruct (shr_m mrs3) as [|p|p]; try lia.
  destruct (e3 <=? emax - prec); [right; eauto | left; reflexivity].
Qed.

Lemma binary_round_positive m e :
  -1074 <= e -> positive_float (binary_round prec emax false m e).
Proof.
  intros He. unfold binary_round, shl_align.
  assert (Hf : -1074 <= fexp prec emax (Zpos (digits2_pos m) + e)).
  { unfold fexp, SpecFloat.emin, prec, emax. lia. }
  destruct (fexp prec emax (Zpos (digits2_pos m) + e) - e);
    apply binary_round_aux_positive; lia.
Qed.

Lemma fadd_positive x y :
  positive_float x -> positive_float y -> positive_float (fadd x y).
Proof.
  intros [->|(mx & ex & -> & Hx)] [->|(my & ey & -> & Hy)];
    try (left; reflexivity).
  unfold fadd, SFadd, binary_normalize. cbn [cond_Zopp].
  match goal with |- context [Zpos ?a + Zpos ?b] =>
    change (Zpos a + Zpos b) with (Zpos (a + b)) end.
  apply binary_round_positive. lia.
Qed.

Lemma positive_float_gt x : positive_float x -> flt fzero x = true.
Proof. intros [->|(m & e & -> & _)]; reflexivity. Qed.

(** What the quantity check of [add_item] lets through, NaN apart. *)
Lemma accepted_quantity q :
  is_float64 q = true -> q <> S754_nan -> fle q fzero = false ->
  positive_float q.
Proof.
  destruct q as [s|[]| |[] m e]; cbn; try discriminate; try congruence.
  - left. reflexivity.
  - intros Hb _ _. right. exists m, e. split; [reflexivity|].
    unfold bounded, canonical_mantissa in Hb.
    apply andb_prop in Hb as [Hc _]. apply Z.eqb_eq in Hc.
    unfold fexp, SpecFloat.emin, prec, emax in Hc. lia.
Qed.

(** What the price check of [add_item] lets through, NaN apart. *)
Lemma accepted_price p :
  p <> S754_nan -> flt p fzero = false -> fle fzero p = true.
Proof.
  destruct p as [s|[]| |[] m e]; cbn; try discriminate; try congruence;
    reflexivity.
Qed.

End PositiveFloats.

(** ** The invariant of the item store *)

Lemma add_quantity_ok name q l :
  positive_float q ->
  Forall (fun p => item_ok (snd p)) l ->
  Forall (fun p => item_ok (snd p)) (add_quantity name q l).
Proof.
  intros Hq. induction 1 as [|[k it] l [Hp Hi] Hl IH]; cbn; [constructor|].
  destruct (String.eqb k name); constructor; try assumption.
  - split; [exact Hp | now apply fadd_positive].
  - split; assumption.
Qed.

Lemma run_call_ok self c :
  call_floats c -> call_no_nan c ->
  Forall (fun p => item_ok (snd p)) (items self) ->
  Forall (fun p => item_ok (snd p)) (items (snd (run_call self c))).
Proof.
  intros Hf Hn H. destruct c as [n p q|n|cd t v]; cbn.
  - destruct Hf as [_ Hfq], Hn as [Hnp Hnq]. unfold add_item.
    destruct (flt p fzero) eqn:Hp; [exact H|].
    destruct (fle q fzero) eqn:Hq; [exact H|].
    pose proof (accepted_quantity q Hfq Hnq Hq) as Hq'.
    destruct (lookup n (items self)); cbn [snd items].
    + now apply add_quantity_ok.
    + apply Forall_app. split; [exact H|].
      constructor; [|constructor].
      split; cbn; [now apply accepted_price | exact Hq'].
  - clear Hf Hn. induction H as [|[k it] l Hk Hl IH]; cbn; [constructor|].
    destruct (String.eqb k n); cbn; [exact IH | now constructor].
  - exact H.
Qed.

Lemma lookup_In name l it : lookup name l = Some it -> In (name, it) l.
Proof.
  induction l as [|[k i] l IH]; cbn; [discriminate|].
  destruct (String.eqb k name) eqn:E.
  - apply String.eqb_eq in E. intros [= ->]. left. now subst.
  - intros H. right. now apply IH.
Qed.

(** ** Digit counts and rounded divisions *)

Section Rounding.

Lemma digits10_fuel_zero fuel n : n <= 0 -> digits10_fuel fuel n = 0.
Proof.
  intros Hn. destruct fuel; cbn [digits10_fuel]; [reflexivity|].
  now replace (n <? 1) with true by (symmetry; apply Z.ltb_lt; lia).
Qed.

Lemma digits10_fuel_spec fuel : forall n,
  0 < n -> n < 2 ^ Z.of_nat fuel ->
  1 <= digits10_fuel fuel n /\
  10 ^ (digits10_fuel fuel n - 1) <= n < 10 ^ digits10_fuel fuel n.
Proof.
  induction fuel as [|f IH]; intros n Hn Hf.
  - cbn in Hf. lia.
  - cbn [digits10_fuel].
    replace (n <? 1) with false by (symmetry; apply Z.ltb_ge; lia).
    destruct (Z.lt_ge_cases n 10) as [Hs|Hb].
    + rewrite Z.div_small, digits10_fuel_zero by lia. cbn. lia.
    + assert (H10 : 0 < n / 10) by (apply Z.div_str_pos; lia).
      assert (Hlt : n / 10 < 2 ^ Z.of_nat f).
      { rewrite Nat2Z.inj_succ, Z.pow_succ_r in Hf by lia.
        apply Z.div_lt_upper_bound; lia. }
      destruct (IH (n / 10) H10 Hlt) as (H1 & Hlo & Hhi).
      set (r := digits10_fuel f (n / 10)) in *.
      pose proof (Z.mul_div_le n 10 ltac:(lia)).
      pose proof (Z.mod_pos_bound n 10 ltac:(lia)).
      pose proof (Z.div_mod n 10 ltac:(lia)).
      replace (1 + r - 1) with (Z.succ (r - 1)) by lia.
      replace (1 + r) with (Z.succ r) by lia.
      rewrite !Z.pow_succ_r by lia. lia.
Qed.

Lemma digits10_spec n :
  0 < n -> 1 <= digits10 n /\ 10 ^ (digits10 n - 1) <= n < 10 ^ digits10 n.
Proof.
  intros Hn. unfold digits10. apply digits10_fuel_spec; [exact Hn|].
  rewrite Nat2Z.inj_succ, Z2Nat.id by apply Z.log2_nonneg.
  apply Z.log2_spec. exact Hn.
Qed.

Lemma digits10_nonpos n : n <= 0 -> digits10 n = 0.
Proof. intros Hn. unfold digits10. now apply digits10_fuel_zero. Qed.

Lemma digits10_nonneg n : 0 <= digits10 n.
Proof.
  destruct (Z.lt_ge_cases 0 n) as [H|H].
  - pose proof (digits10_spec n H). lia.
  - rewrite digits10_nonpos; lia.
Qed.

(** A number below [10 ^ d] has at most [d] digits. *)
Lemma digits10_le n d : 0 <= d -> n < 10 ^ d -> digits10 n <= d.
Proof.
  intros Hd Hn. destruct (Z.lt_ge_cases 0 n) as [H|H].
  - destruct (digits10_spec n H) as (H1 & Hlo & _).
    destruct (Z.lt_ge_cases d (digits10 n)) as [Hc|Hc]; [|exact Hc].
    assert (10 ^ d <= 10 ^ (digits10 n - 1)) by (apply Z.pow_le_mono_r; lia).
    lia.
  - rewrite digits10_nonpos; lia.
Qed.

(** A number from [10 ^ d] on has more than [d] digits. *)
Lemma digits10_gt n d : 0 <= d -> 10 ^ d <= n -> d < digits10 n.
Proof.
  intros Hd Hn.
  assert (H : 0 < n) by (pose proof (Z.pow_pos_nonneg 10 d); lia).
  destruct (digits10_spec n H) as (H1 & _ & Hhi).
  destruct (Z.lt_ge_cases d (digits10 n)) as [Hc|Hc]; [exact Hc|].
  assert (10 ^ digits10 n <= 10 ^ d) by (apply Z.pow_le_mono_r; lia).
  lia.
Qed.

Lemma digits10_mono n1 n2 : n1 <= n2 -> digits10 n1 <= digits10 n2.
Proof.
  intros Hn. destruct (Z.lt_ge_cases 0 n1) as [H|H].
  - destruct (digits10_spec n1 H) as (H1 & Hlo & _).
    pose proof (digits10_gt n2 (digits10 n1 - 1) ltac:(lia) ltac:(lia)). lia.
  - rewrite (digits10_nonpos n1 H). apply digits10_nonneg.
Qed.

(** [n * 10 ^ a] has [a] more digits than [n]. *)
Lemma digits10_shift n a :
  0 < n -> 0 <= a -> digits10 (n * 10 ^ a) = digits10 n + a.
Proof.
  intros Hn Ha.
  destruct (digits10_spec n Hn) as (H1 & Hlo & Hhi).
  pose proof (Z.pow_pos_nonneg 10 a ltac:(lia) Ha) as Hp.
  apply Z.le_antisymm.
  - apply digits10_le; [lia|]. rewrite Z.pow_add_r by lia. nia.
  - pose proof (digits10_gt (n * 10 ^ a) (digits10 n - 1 + a) ltac:(lia)) as G.
    rewrite Z.pow_add_r in G by lia. specialize (G ltac:(nia)). lia.
Qed.

Lemma rne_div_bounds n d :
  0 < d -> n / d <= rne_div n d <= n / d + 1.
Proof.
  intros Hd. unfold rne_div.
  destruct (2 * (n mod d) ?= d); [destruct (Z.even (n / d))| |]; lia.
Qed.

Lemma rne_div_mono n1 n2 d :
  0 < d -> n1 <= n2 -> rne_div n1 d <= rne_div n2 d.
Proof.
  intros Hd Hn.
  pose proof (Z.div_le_mono n1 n2 d Hd Hn) as Hq.
  destruct (Z.eq_dec (n1 / d) (n2 / d)) as [E|E].
  - pose proof (Z.div_mod n1 d ltac:(lia)). pose proof (Z.div_mod n2 d ltac:(lia)).
    assert (Hr : n1 mod d <= n2 mod d) by nia.
    unfold rne_div. rewrite E.
    destruct (Z.compare_spec (2 * (n1 mod d)) d);
      destruct (Z.compare_spec (2 * (n2 mod d)) d);
      destruct (Z.even (n2 / d)); lia.
  - pose proof (rne_div_bounds n1 d Hd). pose proof (rne_div_bounds n2 d Hd).
    lia.
Qed.

Lemma rne_div_exact q d : 0 < d -> rne_div (q * d) d = q.
Proof.
  intros Hd. unfold rne_div.
  rewrite Z.div_mul, Z.mod_mul by lia.
  now replace (2 * 0 ?= d) with Lt by (symmetry; apply Z.compare_lt_iff; lia).
Qed.

Lemma rne_div_scale n d s :
  0 < d -> 0 < s -> rne_div (n * s) (d * s) = rne_div n d.
Proof.
  intros Hd Hs. unfold rne_div.
  rewrite Z.div_mul_cancel_r, Z.mul_mod_distr_r by lia.
  replace (2 * (n mod d * s) ?= d * s) with (2 * (n mod d) ?= d);
    [reflexivity|].
  destruct (Z.compare_spec (2 * (n mod d)) d); symmetry;
    [apply Z.compare_eq_iff | apply Z.compare_lt_iff | apply Z.compare_gt_iff];
    nia.
Qed.

Lemma rhu_div_bounds n d :
  0 < d -> n / d <= rhu_div n d <= n / d + 1.
Proof. intros Hd. unfold rhu_div. destruct (2 * (n mod d) <? d); lia. Qed.

Lemma rhu_div_mono n1 n2 d :
  0 < d -> n1 <= n2 -> rhu_div n1 d <= rhu_div n2 d.
Proof.
  intros Hd Hn.
  pose proof (Z.div_le_mono n1 n2 d Hd Hn) as Hq.
  destruct (Z.eq_dec (n1 / d) (n2 / d)) as [E|E].
  - pose proof (Z.div_mod n1 d ltac:(lia)). pose proof (Z.div_mod n2 d ltac:(lia)).
    assert (Hr : n1 mod d <= n2 mod d) by nia.
    unfold rhu_div. rewrite E.
    destruct (Z.ltb_spec (2 * (n1 mod d)) d);
      destruct (Z.ltb_spec (2 * (n2 mod d)) d); lia.
  - pose proof (rhu_div_bounds n1 d Hd). pose proof (rhu_div_bounds n2 d Hd).
    lia.
Qed.

Lemma rhu_div_exact q d : 0 < d -> rhu_div (q * d) d = q.
Proof.
  intros Hd. unfold rhu_div.
  rewrite Z.div_mul, Z.mod_mul by lia.
  now replace (2 * 0 <? d) with true by (symmetry; apply Z.ltb_lt; lia).
Qed.

Lemma rhu_div_scale n d s :
  0 < d -> 0 < s -> rhu_div (n * s) (d * s) = rhu_div n d.
Proof.
  intros Hd Hs. unfold rhu_div.
  rewrite Z.div_mul_cancel_r, Z.mul_mod_distr_r by lia.
  replace (2 * (n mod d * s) <? d * s) with (2 * (n mod d) <? d);
    [reflexivity|].
  destruct (Z.ltb_spec (2 * (n mod d)) d); symmetry;
    [apply Z.ltb_lt | apply Z.ltb_ge]; nia.
Qed.

End Rounding.

(** ** Rounding to the context precision, on a common scale *)

Section ContextRounding.

Lemma pow10_eq k : 0 <= k -> pow10 k = 10 ^ k.
Proof. intros H. unfold pow10. now rewrite Z.max_r. Qed.

Lemma pow10_one k : k <= 0 -> pow10 k = 1.
Proof. intros H. unfold pow10. now rewrite Z.max_l. Qed.

Lemma round_mag_nonneg x : 0 <= x -> 0 <= round_mag x.
Proof.
  intros Hx. unfold round_mag. destruct (digits10 x <=? Dprec) eqn:E; [exact Hx|].
  apply Z.leb_gt in E.
  assert (0 < 10 ^ (digits10 x - Dprec)) by (apply Z.pow_pos_nonneg; lia).
  pose proof (rne_div_nonneg x _ Hx H). nia.
Qed.

(** Past 28 digits the rounded value stays within the decade of [x]. *)
Lemma round_mag_decade x :
  0 < x -> Dprec < digits10 x ->
  10 ^ (digits10 x - 1) <= round_mag x <= 10 ^ digits10 x.
Proof.
  intros Hx Hd. unfold round_mag.
  replace (digits10 x <=? Dprec) with false by (symmetry; apply Z.leb_gt; lia).
  set (J := digits10 x - Dprec).
  assert (HJ : 0 < 10 ^ J) by (apply Z.pow_pos_nonneg; lia).
  destruct (digits10_spec x Hx) as (_ & Hlo & Hhi).
  assert (E1 : 10 ^ (digits10 x - 1) = 10 ^ 27 * 10 ^ J).
  { rewrite <- Z.pow_add_r by lia. f_equal. unfold J, Dprec. lia. }
  assert (E2 : 10 ^ digits10 x = 10 ^ 28 * 10 ^ J).
  { rewrite <- Z.pow_add_r by lia. f_equal. unfold J, Dprec. lia. }
  rewrite E1, E2 in *.
  pose proof (rne_div_mono _ _ _ HJ Hlo) as M1.
  pose proof (rne_div_mono _ _ _ HJ (Z.lt_le_incl _ _ Hhi)) as M2.
  rewrite rne_div_exact in M1, M2 by exact HJ.
  split; apply Z.mul_le_mono_nonneg_r; lia.
Qed.

Lemma round_mag_mono x y : 0 <= x -> x <= y -> round_mag x <= round_mag y.
Proof.
  intros Hx Hxy.
  destruct (Z.eq_dec x 0) as [->|Hx0].
  { unfold round_mag at 1. rewrite digits10_nonpos by lia. cbn.
    apply round_mag_nonneg. lia. }
  pose proof (digits10_mono x y Hxy) as Hd.
  destruct (Z.le_gt_cases (digits10 y) Dprec) as [Hy|Hy].
  - unfold round_mag.
    replace (digits10 x <=? Dprec) with true by (symmetry; apply Z.leb_le; lia).
    replace (digits10 y <=? Dprec) with true by (symmetry; apply Z.leb_le; lia).
    exact Hxy.
  - pose proof (round_mag_decade y ltac:(lia) Hy) as [Hylo _].
    destruct (digits10_spec x ltac:(lia)) as (_ & _ & Hxhi).
    destruct (Z.le_gt_cases (digits10 x) Dprec) as [Hx'|Hx'].
    + unfold round_mag at 1.
      replace (digits10 x <=? Dprec) with true by (symmetry; apply Z.leb_le; lia).
      assert (10 ^ digits10 x <= 10 ^ (digits10 y - 1))
        by (apply Z.pow_le_mono_r; lia).
      lia.
    + destruct (Z.eq_dec (digits10 x) (digits10 y)) as [E|E].
      * unfold round_mag. rewrite E.
        destruct (digits10 y <=? Dprec); [exact Hxy|].
        assert (0 < 10 ^ (digits10 y - Dprec)) by (apply Z.pow_pos_nonneg; lia).
        apply Z.mul_le_mono_nonneg_r; [lia|]. now apply rne_div_mono.
      * pose proof (round_mag_decade x ltac:(lia) Hx') as [_ Hxhi'].
        assert (10 ^ digits10 x <= 10 ^ (digits10 y - 1))
          by (apply Z.pow_le_mono_r; lia).
        lia.
Qed.

Lemma round_sig_mono x y : x <= y -> round_sig x <= round_sig y.
Proof.
  intros Hxy. unfold round_sig.
  pose proof (round_mag_nonneg (Z.abs x) (Z.abs_nonneg x)).
  pose proof (round_mag_nonneg (Z.abs y) (Z.abs_nonneg y)).
  destruct (Z.sgn_spec x) as [[Hx ->]|[[Hx ->]|[Hx ->]]];
    destruct (Z.sgn_spec y) as [[Hy ->]|[[Hy ->]|[Hy ->]]]; try lia.
  - pose proof (round_mag_mono (Z.abs x) (Z.abs y)). lia.
  - pose proof (round_mag_mono (Z.abs y) (Z.abs x)). lia.
Qed.

Lemma round_mag_shift c a :
  0 < c -> 0 <= a -> digits10 c <= Dprec ->
  round_mag (c * 10 ^ a) = c * 10 ^ a.
Proof.
  intros Hc Ha Hd. unfold round_mag.
  rewrite digits10_shift by assumption.
  destruct (digits10 c + a <=? Dprec) eqn:E; [reflexivity|].
  apply Z.leb_gt in E. set (J := digits10 c + a - Dprec).
  assert (HJ : 0 < 10 ^ J) by (apply Z.pow_pos_nonneg; lia).
  replace (c * 10 ^ a) with (c * 10 ^ (a - J) * 10 ^ J).
  - now rewrite rne_div_exact.
  - rewrite <- Z.mul_assoc, <- Z.pow_add_r by lia. do 2 f_equal. lia.
Qed.

(** [dec_fix] is [round_sig] on any scale [10 ^ E] that reaches below the
    exponent. *)
Lemma dec_fix_value c k E :
  E <= k ->
  exists c' k', dec_fix c k = Dnum c' k' /\ E <= k' /\
    c' * 10 ^ (k' - E) = round_sig (c * 10 ^ (k - E)).
Proof.
  intros HE. set (a := k - E).
  assert (Ha : 0 < 10 ^ a) by (apply Z.pow_pos_nonneg; lia).
  unfold round_sig. rewrite Z.sgn_mul, Z.abs_mul.
  rewrite (Z.sgn_pos (10 ^ a)), (Z.abs_eq (10 ^ a)), Z.mul_1_r by lia.
  destruct (Z.eq_dec c 0) as [->|Hc].
  { exists 0, k. unfold dec_fix. cbn. rewrite digits10_nonpos by lia.
    cbn. repeat split; lia. }
  assert (Hc' : 0 < Z.abs c) by lia.
  destruct (digits10_spec _ Hc') as (Hd1 & Hlo & Hhi).
  unfold dec_fix.
  destruct (digits10 (Z.abs c) <=? Dprec) eqn:E1.
  - apply Z.leb_le in E1. exists c, k. split; [reflexivity|]. split; [lia|].
    rewrite round_mag_shift by (unfold a; lia). fold a.
    destruct (Z.sgn_spec c) as [[? ->]|[[? ->]|[? ->]]]; lia.
  - apply Z.leb_gt in E1. set (j := digits10 (Z.abs c) - Dprec) in *.
    rewrite (pow10_eq j), (pow10_eq Dprec) by (unfold Dprec; lia).
    assert (Hj : 0 < 10 ^ j) by (apply Z.pow_pos_nonneg; lia).
    assert (Hr : round_mag (Z.abs c * 10 ^ a) =
                 rne_div (Z.abs c) (10 ^ j) * 10 ^ (j + a)).
    { unfold round_mag. rewrite digits10_shift by (unfold a; lia).
      replace (digits10 (Z.abs c) + a <=? Dprec) with false
        by (symmetry; apply Z.leb_gt; unfold a; lia).
      replace (digits10 (Z.abs c) + a - Dprec) with (j + a) by (unfold j; lia).
      rewrite (Z.pow_add_r 10 j a) by (unfold a; lia).
      now rewrite rne_div_scale. }
    rewrite Hr.
    destruct (rne_div (Z.abs c) (10 ^ j) =? 10 ^ Dprec) eqn:E2.
    + apply Z.eqb_eq in E2. rewrite E2.
      exists (Z.sgn c * (10 ^ Dprec / 10)), (k + j + 1).
      split; [reflexivity|]. split; [lia|].
      replace (k + j + 1 - E) with (1 + (j + a)) by (unfold a; lia).
      rewrite (Z.pow_add_r 10 1 (j + a)) by (unfold a; lia).
      change (10 ^ Dprec / 10) with (10 ^ 27).
      change (10 ^ Dprec) with (10 ^ 27 * 10 ^ 1). ring.
    + exists (Z.sgn c * rne_div (Z.abs c) (10 ^ j)), (k + j).
      split; [reflexivity|]. split; [lia|].
      replace (k + j - E) with (j + a) by (unfold a; lia). ring.
Qed.

End ContextRounding.

(** ** The float nearest to a ratio grows with the ratio *)

Section FloatOfRatio.

(** [2 ^ (k + j) = 2 ^ k * 2 ^ j], with each power split in numerator and
    denominator. *)
Lemma pow2_split k j :
  pow2 (k + j) * pow2 (- k) * pow2 (- j) =
  pow2 k * pow2 j * pow2 (- (k + j)).
Proof.
  unfold pow2. rewrite <- !Z.pow_add_r by lia. f_equal. lia.
Qed.

Lemma ratio_ge_pow2_down a b k k' :
  0 <= a -> 0 < b -> k' <= k -> ratio_ge_pow2 a b k -> ratio_ge_pow2 a b k'.
Proof.
  unfold ratio_ge_pow2. intros Ha Hb Hk H.
  pose proof (pow2_split k' (k - k')) as S.
  replace (k' + (k - k')) with k in S by lia.
  assert (E1 : pow2 (- (k - k')) = 1) by (unfold pow2; rewrite Z.max_l by lia; reflexivity).
  rewrite E1 in S.
  pose proof (pow2_pos k). pose proof (pow2_pos k'). pose proof (pow2_pos (- k)).
  pose proof (pow2_pos (- k')). pose proof (pow2_pos (k - k')).
  assert (G : b * pow2 k' * (pow2 (k - k') * pow2 (- k)) <=
              a * pow2 (- k') * pow2 (- k)).
  { replace (b * pow2 k' * (pow2 (k - k') * pow2 (- k)))
      with (b * (pow2 k' * pow2 (k - k') * pow2 (- k))) by ring.
    rewrite <- S.
    replace (b * (pow2 k * pow2 (- k') * 1)) with (b * pow2 k * pow2 (- k')) by ring.
    replace (a * pow2 (- k') * pow2 (- k)) with (a * pow2 (- k) * pow2 (- k')) by ring.
    apply Z.mul_le_mono_nonneg_r; lia. }
  assert (b * pow2 k' * pow2 (- k) <= b * pow2 k' * (pow2 (k - k') * pow2 (- k)))
    by nia.
  apply Z.mul_le_mono_pos_r with (p := pow2 (- k)); lia.
Qed.

Lemma ratio_ge_pow2_up a a' b k :
  a <= a' -> ratio_ge_pow2 a b k -> ratio_ge_pow2 a' b k.
Proof.
  unfold ratio_ge_pow2. intros Ha H. pose proof (pow2_pos (- k)). nia.
Qed.

(** [ilog2_ratio a b] is the floor of the logarithm. *)
Lemma ilog2_ratio_spec a b :
  0 < a -> 0 < b ->
  ratio_ge_pow2 a b (ilog2_ratio a b) /\
  ~ ratio_ge_pow2 a b (ilog2_ratio a b + 1).
Proof.
  intros Ha Hb. unfold ilog2_ratio.
  destruct (Z.log2_spec a Ha) as [Ha1 Ha2].
  destruct (Z.log2_spec b Hb) as [Hb1 Hb2].
  pose proof (Z.log2_nonneg a) as Hla. pose proof (Z.log2_nonneg b) as Hlb.
  set (la := Z.log2 a) in *. set (lb := Z.log2 b) in *.
  rewrite <- Z.add_1_r in Ha2, Hb2.
  rewrite Z.pow_add_r in Ha2, Hb2 by lia. change (2 ^ 1) with 2 in *.
  destruct (Z.leb_spec (b * pow2 (la - lb)) (a * pow2 (- (la - lb)))) as [T|T].
  - split; [exact T|]. unfold ratio_ge_pow2, pow2.
    destruct (Z.le_gt_cases 0 (la - lb + 1)) as [C|C].
    + rewrite (Z.max_r 0 (la - lb + 1)), (Z.max_l 0 (- (la - lb + 1))) by lia.
      assert (E : 2 ^ la * 2 = 2 ^ lb * 2 ^ (la - lb + 1)).
      { rewrite <- Z.pow_add_r by lia. replace (lb + (la - lb + 1)) with (la + 1) by lia.
        rewrite Z.pow_add_r by lia. reflexivity. }
      assert (0 < 2 ^ (la - lb + 1)) by (apply Z.pow_pos_nonneg; lia).
      change (2 ^ 0) with 1. nia.
    + rewrite (Z.max_l 0 (la - lb + 1)), (Z.max_r 0 (- (la - lb + 1))) by lia.
      assert (E : 2 ^ la * 2 * 2 ^ (- (la - lb + 1)) = 2 ^ lb).
      { replace (2 ^ la * 2) with (2 ^ (la + 1)) by (rewrite Z.pow_add_r by lia; reflexivity).
        rewrite <- Z.pow_add_r by lia. f_equal. lia. }
      assert (0 < 2 ^ (- (la - lb + 1))) by (apply Z.pow_pos_nonneg; lia).
      change (2 ^ 0) with 1. nia.
  - replace (la - lb - 1 + 1) with (la - lb) by lia.
    split; [|unfold ratio_ge_pow2; lia].
    unfold ratio_ge_pow2, pow2.
    destruct (Z.le_gt_cases 0 (la - lb - 1)) as [C|C].
    + rewrite (Z.max_r 0 (la - lb - 1)), (Z.max_l 0 (- (la - lb - 1))) by lia.
      assert (E : 2 ^ lb * 2 * 2 ^ (la - lb - 1) = 2 ^ la).
      { replace (2 ^ lb * 2) with (2 ^ (lb + 1)) by (rewrite Z.pow_add_r by lia; reflexivity).
        rewrite <- Z.pow_add_r by lia. f_equal. lia. }
      assert (0 < 2 ^ (la - lb - 1)) by (apply Z.pow_pos_nonneg; lia).
      change (2 ^ 0) with 1. nia.
    + rewrite (Z.max_l 0 (la - lb - 1)), (Z.max_r 0 (- (la - lb - 1))) by lia.
      assert (E : 2 ^ lb * 2 = 2 ^ la * 2 ^ (- (la - lb - 1))).
      { replace (2 ^ lb * 2) with (2 ^ (lb + 1)) by (rewrite Z.pow_add_r by lia; reflexivity).
        rewrite <- Z.pow_add_r by lia. f_equal. lia. }
      assert (0 < 2 ^ (- (la - lb - 1))) by (apply Z.pow_pos_nonneg; lia).
      change (2 ^ 0) with 1. nia.
Qed.

Lemma ilog2_ratio_mono a a' b :
  0 < a -> a <= a' -> 0 < b -> ilog2_ratio a b <= ilog2_ratio a' b.
Proof.
  intros Ha Haa Hb.
  destruct (ilog2_ratio_spec a b Ha Hb) as [L1 _].
  destruct (ilog2_ratio_spec a' b ltac:(lia) Hb) as [_ U2].
  destruct (Z.le_gt_cases (ilog2_ratio a b) (ilog2_ratio a' b)) as [C|C];
    [exact C|].
  exfalso. apply U2.
  apply ratio_ge_pow2_up with (a := a); [exact Haa|].
  apply ratio_ge_pow2_down with (k := ilog2_ratio a b); try lia. exact L1.
Qed.

End FloatOfRatio.

Section FloatOfRatioOrder.

Lemma ratio_scale a b e j :
  0 <= j ->
  (ratio_ge_pow2 a b (e + j) <-> 2 ^ j * (b * pow2 e) <= a * pow2 (- e)).
Proof.
  intros Hj. unfold ratio_ge_pow2.
  pose proof (pow2_split e j) as S.
  assert (E1 : pow2 (- j) = 1) by (unfold pow2; rewrite Z.max_l by lia; reflexivity).
  assert (E2 : pow2 j = 2 ^ j) by (unfold pow2; rewrite Z.max_r by lia; reflexivity).
  rewrite E1, E2 in S.
  pose proof (pow2_pos e). pose proof (pow2_pos (- e)).
  pose proof (pow2_pos (e + j)). pose proof (pow2_pos (- (e + j))).
  set (P := pow2 (e + j)) in *. set (N := pow2 (- (e + j))) in *.
  set (Pe := pow2 e) in *. set (Ne := pow2 (- e)) in *. set (T := 2 ^ j) in *.
  split; intros G.
  - apply Z.mul_le_mono_pos_r with (p := N); [lia|].
    replace (T * (b * Pe) * N) with (b * (Pe * T * N)) by ring.
    rewrite <- S. nia.
  - apply Z.mul_le_mono_pos_r with (p := Ne); [lia|].
    replace (b * P * Ne) with (b * (P * Ne * 1)) by ring.
    rewrite S. nia.
Qed.

Lemma fl_man_le a b : 0 < a -> 0 < b -> fl_man a b <= 2 ^ 53.
Proof.
  intros Ha Hb. unfold fl_man. set (e := fl_exp a b).
  destruct (ilog2_ratio_spec a b Ha Hb) as [_ U].
  assert (N : ~ ratio_ge_pow2 a b (e + 53)).
  { intros G. apply U.
    apply ratio_ge_pow2_down with (k := e + 53); try lia; [|exact G].
    unfold e, fl_exp. lia. }
  rewrite ratio_scale in N by lia.
  pose proof (pow2_pos e) as He.
  rewrite <- (rne_div_exact (2 ^ 53) (b * pow2 e)) by nia.
  apply rne_div_mono; [nia | lia].
Qed.

Lemma fl_man_normal a b :
  0 < a -> 0 < b -> -1074 < fl_exp a b -> 2 ^ 52 <= fl_man a b.
Proof.
  intros Ha Hb He. unfold fl_man. set (e := fl_exp a b) in *.
  destruct (ilog2_ratio_spec a b Ha Hb) as [L _].
  assert (E : ilog2_ratio a b = e + 52) by (unfold e, fl_exp in *; lia).
  rewrite E, ratio_scale in L by lia.
  pose proof (pow2_pos e) as Hp.
  rewrite <- (rne_div_exact (2 ^ 52) (b * pow2 e)) by nia.
  apply rne_div_mono; [nia | lia].
Qed.

Lemma fl_exp_mono a a' b :
  0 < a -> a <= a' -> 0 < b -> fl_exp a b <= fl_exp a' b.
Proof.
  intros Ha Haa Hb. unfold fl_exp.
  pose proof (ilog2_ratio_mono a a' b Ha Haa Hb). lia.
Qed.

Lemma float_of_ratio_parts s a b :
  float_of_ratio s a b =
    if a <=? 0 then S754_zero s
    else match fst (fl_parts a b) with
         | Zpos p => if snd (fl_parts a b) <=? emax - prec
                     then S754_finite s p (snd (fl_parts a b))
                     else S754_infinity s
         | _ => S754_zero s
         end.
Proof.
  unfold float_of_ratio, fl_parts.
  destruct (a <=? 0); [reflexivity|].
  fold (fl_exp a b). fold (fl_man a b).
  destruct (fl_man a b =? 2 ^ 53); reflexivity.
Qed.

(** The parts are ordered like the ratios: first by exponent, then by
    mantissa. *)
Lemma fl_parts_mono a a' b :
  0 < a -> a <= a' -> 0 < b ->
  0 < fst (fl_parts a b) ->
  snd (fl_parts a b) < snd (fl_parts a' b) \/
  (snd (fl_parts a b) = snd (fl_parts a' b) /\
   fst (fl_parts a b) <= fst (fl_parts a' b)).
Proof.
  intros Ha Haa Hb Hpos.
  pose proof (fl_exp_mono a a' b Ha Haa Hb) as He.
  pose proof (fl_man_le a b Ha Hb) as M1.
  pose proof (fl_man_le a' b ltac:(lia) Hb) as M2.
  unfold fl_parts in *.
  destruct (Z.eq_dec (fl_exp a b) (fl_exp a' b)) as [E|E].
  - assert (Hm : fl_man a b <= fl_man a' b).
    { unfold fl_man. rewrite E. apply rne_div_mono.
      - pose proof (pow2_pos (fl_exp a' b)). nia.
      - pose proof (pow2_pos (- fl_exp a' b)). nia. }
    destruct (Z.eqb_spec (fl_man a b) (2 ^ 53)) as [C1|C1];
      destruct (Z.eqb_spec (fl_man a' b) (2 ^ 53)) as [C2|C2];
      cbn [fst snd] in *; lia.
  - assert (Hn : 2 ^ 52 <= fl_man a' b).
    { apply fl_man_normal; try lia.
      unfold fl_exp in *. lia. }
    destruct (Z.eqb_spec (fl_man a b) (2 ^ 53)) as [C1|C1];
      destruct (Z.eqb_spec (fl_man a' b) (2 ^ 53)) as [C2|C2];
      cbn [fst snd] in *; lia.
Qed.

Lemma fl_parts_pos_up a a' b :
  0 < a -> a <= a' -> 0 < b ->
  0 < fst (fl_parts a b) -> 0 < fst (fl_parts a' b).
Proof.
  intros Ha Haa Hb Hpos.
  pose proof (fl_exp_mono a a' b Ha Haa Hb) as He.
  unfold fl_parts in *.
  destruct (Z.eqb_spec (fl_man a' b) (2 ^ 53)) as [C2|C2]; cbn [fst]; [lia|].
  destruct (Z.eq_dec (fl_exp a b) (fl_exp a' b)) as [E|E].
  - assert (Hm : fl_man a b <= fl_man a' b).
    { unfold fl_man. rewrite E. apply rne_div_mono.
      - pose proof (pow2_pos (fl_exp a' b)). nia.
      - pose proof (pow2_pos (- fl_exp a' b)). nia. }
    destruct (Z.eqb_spec (fl_man a b) (2 ^ 53)); cbn [fst] in *; lia.
  - assert (Hn : 2 ^ 52 <= fl_man a' b).
    { apply fl_man_normal; try lia. unfold fl_exp in *. lia. }
    lia.
Qed.

Lemma fle_finite p e p' e' :
  e < e' \/ (e = e' /\ Zpos p <= Zpos p') ->
  fle (S754_finite false p e) (S754_finite false p' e') = true.
Proof.
  unfold fle, SFleb, SFcompare. intros [H|[-> H]].
  - now replace (e ?= e') with Lt by (symmetry; apply Z.compare_lt_iff; exact H).
  - rewrite Z.compare_refl. fold (Pos.compare p p').
    destruct (Pos.compare_spec p p'); try reflexivity. lia.
Qed.

(** The float of a decimal with two places grows with the decimal. *)
Lemma float_of_ratio_mono a a' b :
  a <= a' -> 0 < b ->
  fle (float_of_ratio false a b) (float_of_ratio false a' b) = true.
Proof.
  intros Haa Hb.
  destruct (Z.le_gt_cases a 0) as [Ha|Ha].
  { rewrite (float_of_ratio_parts false a).
    replace (a <=? 0) with true by (symmetry; apply Z.leb_le; exact Ha).
    apply float_of_ratio_nonneg. }
  rewrite !float_of_ratio_parts.
  replace (a <=? 0) with false by (symmetry; apply Z.leb_gt; exact Ha).
  replace (a' <=? 0) with false by (symmetry; apply Z.leb_gt; lia).
  pose proof (fl_parts_mono a a' b Ha Haa Hb) as Hm.
  pose proof (fl_parts_pos_up a a' b Ha Haa Hb) as Hp.
  destruct (fl_parts a b) as [m e], (fl_parts a' b) as [m' e'].
  cbn [fst snd] in *.
  destruct m as [|p|p].
  - destruct m'; try reflexivity. destruct (e' <=? emax - prec); reflexivity.
  - specialize (Hm ltac:(lia)). specialize (Hp ltac:(lia)).
    destruct m' as [|p'|p']; try lia.
    destruct (Z.leb_spec e (emax - prec)), (Z.leb_spec e' (emax - prec));
      try reflexivity.
    + now apply fle_finite.
    + exfalso. lia.
  - destruct m'; try reflexivity. destruct (e' <=? emax - prec); reflexivity.
Qed.

(** What [float_of_ratio] returns is a binary64 value: 53 bits at most, and
    fewer only at the smallest exponent. *)
Lemma float_of_ratio_valid s a b :
  0 < b -> is_float64 (float_of_ratio s a b) = true.
Proof.
  intros Hb. rewrite float_of_ratio_parts.
  destruct (Z.leb_spec a 0) as [Ha|Ha]; [reflexivity|].
  pose proof (fl_man_le a b Ha Hb) as M1.
  pose proof (fl_man_normal a b Ha Hb) as M2.
  assert (He : -1074 <= fl_exp a b) by (unfold fl_exp; lia).
  unfold fl_parts.
  destruct (Z.eqb_spec (fl_man a b) (2 ^ 53)) as [C|C]; cbn [fst snd].
  - change (2 ^ 52) with (Zpos (xO (Pos.pow 2 51))).
    destruct (Z.leb_spec (fl_exp a b + 1) (emax - prec)) as [L|L];
      [|reflexivity].
    unfold is_float64, valid_binary, bounded, canonical_mantissa.
    rewrite digits2_pos_log2.
    change (Z.log2 (Zpos (xO (Pos.pow 2 51)))) with 52.
    apply andb_true_intro. split; [apply Z.eqb_eq | apply Z.leb_le; exact L].
    unfold fexp, SpecFloat.emin, prec, emax. lia.
  - destruct (fl_man a b) as [|p|p] eqn:Em; try reflexivity.
    destruct (Z.leb_spec (fl_exp a b) (emax - prec)) as [L|L]; [|reflexivity].
    unfold is_float64, valid_binary, bounded, canonical_mantissa.
    rewrite digits2_pos_log2.
    apply andb_true_intro. split; [apply Z.eqb_eq | apply Z.leb_le; exact L].
    assert (Hlt : Z.log2 (Zpos p) < 53) by (apply Z.log2_lt_pow2; lia).
    unfold fexp, SpecFloat.emin, prec, emax.
    destruct (Z.eq_dec (fl_exp a b) (-1074)) as [E|E]; [lia|].
    assert (Hge : 52 <= Z.log2 (Zpos p)) by (apply Z.log2_le_pow2; lia).
    lia.
Qed.

(** On these ratios it is the quotient of [SpecFloat]. *)
Example float_of_ratio_is_SFdiv :
  float_of_ratio false 7 10 =
    SFdiv prec emax (S754_finite false 7 0) (S754_finite false 10 0) /\
  float_of_ratio false 85 1000 =
    SFdiv prec emax (S754_finite false 85 0) (S754_finite false 1000 0) /\
  float_of_ratio true 2675 1000 =
    SFdiv prec emax (S754_finite true 2675 0) (S754_finite false 1000 0) /\
  float_of_ratio false 1 3 =
    SFdiv prec emax (S754_finite false 1 0) (S754_finite false 3 0).
Proof. repeat split; vm_compute; reflexivity. Qed.

(** Literals, [round] and [float(Decimal)] give binary64 values. *)
Lemma float_lit_valid c k : is_float64 (float_lit c k) = true.
Proof. apply float_of_ratio_valid, pow10_pos. Qed.

Lemma round_valid x n : is_float64 x = true -> is_float64 (round x n) = true.
Proof.
  destruct x as [s|s| |s m e]; trivial.
  intros _. apply float_of_ratio_valid, pow10_pos.
Qed.

Lemma float_of_Decimal_valid d : is_float64 (float_of_Decimal d) = true.
Proof.
  destruct d as [c k|s|]; try reflexivity.
  apply float_of_ratio_valid, pow10_pos.
Qed.

Lemma get_total_valid self t : get_total self = Ok t -> is_float64 t = true.
Proof.
  unfold get_total.
  repeat match goal with
  | |- bind ?r _ = Ok _ -> _ =>
      destruct r; cbn [bind]; [|discriminate]
  end.
  intros [= <-]. apply float_of_Decimal_valid.
Qed.

End FloatOfRatioOrder.

(** ** The digits of [str] *)

Section ReprDigits.

Lemma pow10_split k j :
  pow10 (k + j) * pow10 (- k) * pow10 (- j) =
  pow10 k * pow10 j * pow10 (- (k + j)).
Proof.
  unfold pow10. rewrite <- !Z.pow_add_r by lia. f_equal. lia.
Qed.

Lemma scaled_floor_nonneg m e k : 0 <= m -> 0 <= scaled_floor m e k.
Proof.
  intros Hm. unfold scaled_floor.
  pose proof (pow2_pos e). pose proof (pow2_pos (- e)).
  pose proof (pow10_pos k). pose proof (pow10_pos (- k)).
  apply Z.div_pos; nia.
Qed.

(** [m * 2 ^ e < 10 ^ decade m e] *)
Lemma decade_upper m e :
  0 < m ->
  m * pow2 e * pow10 (- decade m e) < pow2 (- e) * pow10 (decade m e).
Proof.
  intros Hm. unfold decade, scaled_floor.
  change (pow10 (- 0)) with 1. change (pow10 0) with 1.
  rewrite !Z.mul_1_r.
  pose proof (pow2_pos e) as Pe. pose proof (pow2_pos (- e)) as Ne.
  set (N := m * pow2 e). set (D := pow2 (- e)) in *.
  destruct (Z.leb_spec 1 (N / D)) as [C|C].
  - destruct (digits10_spec (N / D) ltac:(lia)) as (H1 & _ & Hhi).
    set (p := digits10 (N / D)) in *.
    rewrite (pow10_one (- p)), (pow10_eq p) by lia.
    pose proof (Z.div_mod N D ltac:(lia)). pose proof (Z.mod_pos_bound N D Ne).
    nia.
  - assert (HND : N < D).
    { destruct (Z.lt_ge_cases N D) as [G|G]; [exact G|].
      pose proof (Z.div_le_lower_bound N D 1 Ne ltac:(lia)). lia. }
    assert (He : e < 0).
    { destruct (Z.lt_ge_cases e 0) as [G|G]; [exact G|].
      unfold D, pow2 in HND. rewrite Z.max_l in HND by lia.
      change (2 ^ 0) with 1 in HND. unfold N in HND. nia. }
    assert (EN : N = m).
    { unfold N, pow2. rewrite Z.max_l by lia. change (2 ^ 0) with 1. lia. }
    rewrite EN in *.
    set (cc := (D + m - 1) / m).
    assert (Hcc : m * (cc - 1) < D).
    { pose proof (Z.mul_div_le (D + m - 1) m Hm). fold cc in H. lia. }
    destruct (Z.le_gt_cases (cc - 1) 0) as [Z0|Z1].
    + rewrite digits10_nonpos by exact Z0.
      change (pow10 (- (1 - 0))) with 1. change (pow10 (1 - 0)) with 10. lia.
    + destruct (digits10_spec (cc - 1) Z1) as (H1 & Hlo & _).
      set (z := digits10 (cc - 1)) in *.
      rewrite (pow10_one (1 - z)) by lia.
      rewrite (pow10_eq (- (1 - z))) by lia.
      replace (- (1 - z)) with (z - 1) by lia. nia.
Qed.

(** With [n] digits asked the floor is below [10 ^ n]. *)
Lemma scaled_floor_digits m e n :
  0 < m -> 0 <= n -> scaled_floor m e (decade m e - n) < 10 ^ n.
Proof.
  intros Hm Hn. pose proof (decade_upper m e Hm) as U.
  set (p := decade m e) in *. set (k := p - n).
  pose proof (pow10_split k n) as S.
  replace (k + n) with p in S by (unfold k; lia).
  rewrite (pow10_one (- n)), (pow10_eq n) in S by lia.
  unfold scaled_floor.
  pose proof (pow2_pos e). pose proof (pow2_pos (- e)).
  pose proof (pow10_pos k). pose proof (pow10_pos (- k)).
  pose proof (pow10_pos p). pose proof (pow10_pos (- p)).
  apply Z.div_lt_upper_bound; [nia|].
  apply Z.mul_lt_mono_pos_r with (p := pow10 (- p)); [lia|].
  set (A := m * pow2 e) in *. set (B := pow2 (- e)) in *.
  replace (A * pow10 (- k) * pow10 (- p)) with (A * pow10 (- p) * pow10 (- k)) by ring.
  replace (B * pow10 k * 10 ^ n * pow10 (- p))
    with (B * (pow10 k * 10 ^ n * pow10 (- p))) by ring.
  rewrite <- S. nia.
Qed.

Lemma repr_try_bound m e n c k :
  0 <= n -> repr_try m e n = Some (c, k) -> 0 <= c <= 10 ^ n.
Proof.
  intros Hn. unfold repr_try.
  pose proof (scaled_floor_nonneg (Zpos m) e (decade (Zpos m) e - n) ltac:(lia)).
  pose proof (scaled_floor_digits (Zpos m) e n ltac:(lia) Hn).
  set (lo := scaled_floor (Zpos m) e (decade (Zpos m) e - n)) in *.
  destruct (float_eqb (float_of_decimal lo _) _);
    destruct (float_eqb (float_of_decimal (lo + 1) _) _);
    try discriminate.
  - destruct (_ ?= _); [destruct (Z.even lo)| |]; intros [= <- <-]; lia.
  - intros [= <- <-]; lia.
  - intros [= <- <-]; lia.
Qed.

Lemma repr_search_bound fuel : forall m e n,
  0 <= n -> n + Z.of_nat fuel <= 18 ->
  0 <= fst (repr_search fuel m e n) <= 10 ^ 17.
Proof.
  induction fuel as [|f IH]; intros m e n Hn Hf; cbn [repr_search].
  - cbn [fst].
    pose proof (scaled_floor_nonneg (Zpos m) e (decade (Zpos m) e - 17) ltac:(lia)).
    pose proof (scaled_floor_digits (Zpos m) e 17 ltac:(lia) ltac:(lia)). lia.
  - destruct (repr_try m e n) as [[c k]|] eqn:E.
    + apply repr_try_bound in E; [|exact Hn]. cbn [fst].
      assert (10 ^ n <= 10 ^ 17) by (apply Z.pow_le_mono_r; lia). lia.
    + apply IH; lia.
Qed.

Lemma repr_digits_bound m e : 0 <= fst (repr_digits m e) <= 10 ^ 17.
Proof. unfold repr_digits. apply repr_search_bound; cbn; lia. Qed.

(** [Decimal(str(x))] is a NaN, an infinity, or a coefficient of at most 18
    digits. *)
Lemma Decimal_str_cases x :
  Decimal (str x) = Dnan \/
  (exists s, Decimal (str x) = Dinf s) \/
  (exists c k, Decimal (str x) = Dnum c k /\ Z.abs c <= 10 ^ 17).
Proof.
  destruct x as [s|s| |s m e]; unfold str; cbn [Decimal].
  - right; right. exists (if s then - 0 else 0), 0. split; [reflexivity|].
    destruct s; cbn; lia.
  - right; left. eauto.
  - left. reflexivity.
  - right; right. pose proof (repr_digits_bound m e) as B.
    destruct (repr_digits m e) as [c k]. cbn [fst] in B. cbn [Decimal].
    exists (if s then - c else c), k. split; [reflexivity|].
    destruct s; lia.
Qed.

(** For a negative float it is [-inf] or a coefficient [<= 0]. *)
Lemma Decimal_str_negative v :
  flt v fzero = true ->
  Decimal (str v) = Dinf true \/
  (exists c k, Decimal (str v) = Dnum (- c) k /\ 0 <= c).
Proof.
  destruct v as [s|[]| |[] m e]; cbn; try discriminate; intros _.
  - left. reflexivity.
  - right. unfold str. pose proof (repr_digits_bound m e) as B.
    destruct (repr_digits m e) as [c k]. cbn [fst] in B. cbn [Decimal].
    exists c, k. split; [reflexivity | lia].
Qed.

End ReprDigits.

(** ** A larger amount before tax gives a larger total *)

Section TotalOrder.

Lemma num_le_scale c1 k1 c2 k2 E :
  E <= k1 -> E <= k2 ->
  (num_le c1 k1 c2 k2 <-> c1 * 10 ^ (k1 - E) <= c2 * 10 ^ (k2 - E)).
Proof.
  intros H1 H2. unfold num_le.
  destruct (Z.le_ge_cases k1 k2) as [C|C].
  - rewrite (pow10_one (k1 - k2)), (pow10_eq (k2 - k1)) by lia.
    replace (k2 - E) with (k2 - k1 + (k1 - E)) by lia.
    rewrite Z.pow_add_r by lia.
    assert (0 < 10 ^ (k1 - E)) by (apply Z.pow_pos_nonneg; lia).
    split; intros G; nia.
  - rewrite (pow10_one (k2 - k1)), (pow10_eq (k1 - k2)) by lia.
    replace (k1 - E) with (k1 - k2 + (k2 - E)) by lia.
    rewrite Z.pow_add_r by lia.
    assert (0 < 10 ^ (k2 - E)) by (apply Z.pow_pos_nonneg; lia).
    split; intros G; nia.
Qed.

Lemma dec_lt_zero c k : dec_lt (Dnum c k) (Dnum 0 0) = Ok (c <? 0).
Proof.
  cbn [dec_lt]. f_equal.
  pose proof (pow10_pos (k - Z.min k 0)).
  destruct (Z.ltb_spec c 0); [apply Z.ltb_lt | apply Z.ltb_ge]; nia.
Qed.

Lemma round_sig_nonneg x : 0 <= x -> 0 <= round_sig x.
Proof.
  intros Hx. unfold round_sig.
  pose proof (round_mag_nonneg (Z.abs x) (Z.abs_nonneg x)).
  destruct (Z.sgn_spec x) as [[? ->]|[[? ->]|[? ->]]]; lia.
Qed.

Lemma round_sig_shift c a :
  0 <= a -> digits10 (Z.abs c) <= Dprec -> round_sig (c * 10 ^ a) = c * 10 ^ a.
Proof.
  intros Ha Hd. unfold round_sig.
  assert (0 < 10 ^ a) by (apply Z.pow_pos_nonneg; lia).
  rewrite Z.sgn_mul, Z.abs_mul, (Z.sgn_pos (10 ^ a)), (Z.abs_eq (10 ^ a)) by lia.
  destruct (Z.eq_dec c 0) as [->|Hc].
  - cbn. reflexivity.
  - rewrite round_mag_shift by (try assumption; lia).
    destruct (Z.sgn_spec c) as [[? ->]|[[? ->]|[? ->]]]; lia.
Qed.

Lemma rhu_div_zero d : 0 < d -> rhu_div 0 d = 0.
Proof.
  intros Hd. unfold rhu_div. rewrite Z.div_0_l, Z.mod_0_l by lia.
  now replace (2 * 0 <? d) with true by (symmetry; apply Z.ltb_lt; lia).
Qed.

(** [quantize] at two places is [rhu_div] on any scale below. *)
Lemma quantize_value f j E r :
  0 <= f -> E <= j -> E <= -2 ->
  quantize (Dnum f j) (-2) = Ok r ->
  r = Dnum (rhu_div (f * 10 ^ (j - E)) (10 ^ (-2 - E))) (-2).
Proof.
  intros Hf Hj HE. cbn [quantize].
  assert (P1 : 0 < 10 ^ (j - E)) by (apply Z.pow_pos_nonneg; lia).
  assert (P2 : 0 < 10 ^ (-2 - E)) by (apply Z.pow_pos_nonneg; lia).
  destruct (Z.eqb_spec f 0) as [->|Hf0].
  { intros [= <-]. now rewrite Z.mul_0_l, rhu_div_zero. }
  destruct (Dprec <? digits10 (Z.abs f) + j - -2); [discriminate|].
  match goal with |- context [digits10 ?x] => set (q := x) end.
  destruct (Dprec <? digits10 q); [discriminate|].
  intros [= <-]. f_equal.
  rewrite Z.sgn_pos, Z.mul_1_l by lia. unfold q.
  rewrite Z.abs_eq by lia.
  destruct (Z.leb_spec (-2) j) as [C|C].
  - rewrite pow10_eq by lia.
    replace (j - E) with (j - -2 + (-2 - E)) by lia.
    rewrite Z.pow_add_r, Z.mul_assoc by lia.
    now rewrite rhu_div_exact.
  - rewrite pow10_eq by lia.
    replace (-2 - E) with (-2 - j + (j - E)) by lia.
    rewrite Z.pow_add_r by lia.
    assert (0 < 10 ^ (-2 - j)) by (apply Z.pow_pos_nonneg; lia).
    now rewrite rhu_div_scale.
Qed.

Lemma float_of_decimal_cents_mono q1 q2 :
  0 <= q1 -> q1 <= q2 ->
  fle (float_of_decimal q1 (-2)) (float_of_decimal q2 (-2)) = true.
Proof.
  intros H1 H2. unfold float_of_decimal.
  replace (q1 <? 0) with false by (symmetry; apply Z.ltb_ge; lia).
  replace (q2 <? 0) with false by (symmetry; apply Z.ltb_ge; lia).
  rewrite !Z.abs_eq by lia.
  apply float_of_ratio_mono; [|apply pow10_pos].
  pose proof (pow10_pos (-2)). nia.
Qed.

(** The steps of [get_total] after the discount keep the order of the
    amounts. *)
Lemma taxed_total_mono c1 k1 c2 k2 t1 t2 :
  num_le c1 k1 c2 k2 ->
  taxed_total (Dnum c1 k1) = Ok t1 ->
  taxed_total (Dnum c2 k2) = Ok t2 ->
  fle t1 t2 = true.
Proof.
  intros Hle. unfold taxed_total. rewrite !dec_lt_zero. cbn [bind].
  (* the clamp *)
  set (x := if c1 <? 0 then Dnum 0 0 else Dnum c1 k1).
  set (y := if c2 <? 0 then Dnum 0 0 else Dnum c2 k2).
  assert (Hxy : exists a1 j1 a2 j2,
    x = Dnum a1 j1 /\ y = Dnum a2 j2 /\ 0 <= a1 /\ num_le a1 j1 a2 j2).
  { unfold x, y.
    destruct (Z.ltb_spec c1 0) as [N1|N1]; destruct (Z.ltb_spec c2 0) as [N2|N2].
    - exists 0, 0, 0, 0. repeat split; unfold num_le; lia.
    - exists 0, 0, c2, k2. repeat split; [lia|].
      unfold num_le. pose proof (pow10_pos (k2 - 0)). nia.
    - exfalso. unfold num_le in Hle.
      pose proof (pow10_pos (k1 - k2)). pose proof (pow10_pos (k2 - k1)). nia.
    - exists c1, k1, c2, k2. repeat split; assumption. }
  destruct Hxy as (a1 & j1 & a2 & j2 & -> & -> & Ha1 & Hle').
  cbn [dec_mul bind].
  (* the tax, on a common scale *)
  set (E := Z.min (Z.min (j1 + -3) (j2 + -3)) (-2)).
  destruct (dec_fix_value (a1 * 1085) (j1 + -3) E ltac:(lia))
    as (f1 & e1 & -> & He1 & V1).
  destruct (dec_fix_value (a2 * 1085) (j2 + -3) E ltac:(lia))
    as (f2 & e2 & -> & He2 & V2).
  assert (HX : a1 * 1085 * 10 ^ (j1 + -3 - E) <= a2 * 1085 * 10 ^ (j2 + -3 - E)).
  { apply (num_le_scale a1 j1 a2 j2 (E + 3)) in Hle'; try lia.
    replace (j1 + -3 - E) with (j1 - (E + 3)) by lia.
    replace (j2 + -3 - E) with (j2 - (E + 3)) by lia. lia. }
  assert (HX0 : 0 <= a1 * 1085 * 10 ^ (j1 + -3 - E)).
  { assert (0 < 10 ^ (j1 + -3 - E)) by (apply Z.pow_pos_nonneg; lia). nia. }
  pose proof (round_sig_mono _ _ HX) as HR.
  pose proof (round_sig_nonneg _ HX0) as HR0.
  rewrite <- V1, <- V2 in HR. rewrite <- V1 in HR0.
  assert (P1 : 0 < 10 ^ (e1 - E)) by (apply Z.pow_pos_nonneg; lia).
  assert (P2 : 0 < 10 ^ (e2 - E)) by (apply Z.pow_pos_nonneg; lia).
  assert (Hf1 : 0 <= f1) by nia.
  assert (Hf2 : 0 <= f2) by nia.
  (* the rounding to cents *)
  destruct (quantize (Dnum f1 e1) (-2)) as [r1|] eqn:Q1; cbn [bind];
    [|discriminate].
  destruct (quantize (Dnum f2 e2) (-2)) as [r2|] eqn:Q2; cbn [bind];
    [|discriminate].
  apply (quantize_value f1 e1 E) in Q1; try lia.
  apply (quantize_value f2 e2 E) in Q2; try lia.
  subst r1 r2. cbn [float_of_Decimal].
  assert (P3 : 0 < 10 ^ (-2 - E)) by (apply Z.pow_pos_nonneg; lia).
  pose proof (rhu_div_nonneg _ _ HR0 P3) as G1.
  pose proof (rhu_div_mono _ _ _ P3 HR) as G2.
  set (q1 := rhu_div (f1 * 10 ^ (e1 - E)) (10 ^ (-2 - E))) in *.
  set (q2 := rhu_div (f2 * 10 ^ (e2 - E)) (10 ^ (-2 - E))) in *.
  intros H1 H2. injection H1 as <-. injection H2 as <-.
  now apply float_of_decimal_cents_mono.
Qed.

Lemma fle_refl_nonneg t : fle fzero t = true -> fle t t = true.
Proof.
  destruct t as [s|[]| |[] m e]; cbn; try discriminate; try reflexivity.
  intros _. apply fle_finite. right. split; [reflexivity | lia].
Qed.

(** Subtracting the decimal of a negative float does not lower a decimal
    of at most 18 digits: the difference is rounded to the context, and the
    decimal itself is representable there. *)
Lemma negative_fixed_pre_tax c k v d :
  flt v fzero = true -> Z.abs c <= 10 ^ 17 ->
  dec_sub (Dnum c k) (Decimal (str v)) = Ok d ->
  d = Dinf false \/ exists c1 k1, d = Dnum c1 k1 /\ num_le c k c1 k1.
Proof.
  intros Hv Hc.
  destruct (Decimal_str_negative v Hv) as [->|(cv & kv & -> & Hcv)].
  - cbn. intros [= <-]. left. reflexivity.
  - cbn [dec_sub dec_neg dec_add].
    set (kk := Z.min k kv).
    destruct (dec_fix_value (c * pow10 (k - kk) + - - cv * pow10 (kv - kk))
                kk kk ltac:(lia)) as (c1 & k1 & -> & Hk1 & V).
    intros [= <-]. right. exists c1, k1. split; [reflexivity|].
    apply (num_le_scale c k c1 k1 kk); try lia.
    rewrite V, Z.sub_diag, Z.mul_1_r.
    rewrite <- (round_sig_shift c (k - kk)); try lia.
    + apply round_sig_mono. rewrite pow10_eq by lia.
      pose proof (pow10_pos (kv - kk)). nia.
    + apply digits10_le; [unfold Dprec; lia|].
      assert (10 ^ 17 < 10 ^ Dprec) by (vm_compute; reflexivity). lia.
Qed.

(** A fixed discount of negative value does not lower what [get_total]
    returns. *)
Lemma negative_fixed_not_lower its cd v t0 t1 :
  flt v fzero = true ->
  get_total {| items := its; discount := None |} = Ok t0 ->
  get_total {| items := its;
               discount := Some {| code := cd; type := "fixed"; value := v |} |}
    = Ok t1 ->
  fle t0 t1 = true.
Proof.
  intros Hv. rewrite !get_total_steps.
  unfold _calculate_raw_subtotal. cbn [items discount discounted type value].
  change (String.eqb "fixed" "percentage") with false.
  change (String.eqb "fixed" "fixed") with true. cbn iota. cbn [bind].
  match goal with |- context [Decimal (str ?r)] => set (raw := r) end.
  destruct (Decimal_str_cases raw) as [->|[[s ->]|(c & k & -> & Hc)]].
  - cbn. discriminate.
  - destruct s.
    + destruct (Decimal_str_negative v Hv) as [->|(cv & kv & -> & Hcv)].
      * cbn. discriminate.
      * cbn [dec_sub dec_neg dec_add bind].
        intros H0 H1. rewrite H0 in H1. injection H1 as <-.
        apply fle_refl_nonneg. now apply (taxed_total_nonneg (Dinf true)).
    + cbn. discriminate.
  - destruct (dec_sub (Dnum c k) (Decimal (str v))) as [d|] eqn:Hd;
      cbn [bind]; [|discriminate].
    destruct (negative_fixed_pre_tax c k v d Hv Hc Hd)
      as [->|(c1 & k1 & -> & Hle)].
    + intros _. cbn. discriminate.
    + now apply taxed_total_mono.
Qed.

End TotalOrder.

(** ** Carts on which [get_total] returns *)

Section Totality.

(** [10 ^ (decade m e - 1) <= m * 2 ^ e] *)
Lemma decade_lower m e :
  0 < m ->
  pow2 (- e) * pow10 (decade m e - 1) <=
  m * pow2 e * pow10 (- (decade m e - 1)).
Proof.
  intros Hm. unfold decade, scaled_floor.
  change (pow10 (- 0)) with 1. change (pow10 0) with 1.
  rewrite !Z.mul_1_r.
  pose proof (pow2_pos e) as Pe. pose proof (pow2_pos (- e)) as Ne.
  set (N := m * pow2 e). set (D := pow2 (- e)) in *.
  destruct (Z.leb_spec 1 (N / D)) as [C|C].
  - destruct (digits10_spec (N / D) ltac:(lia)) as (H1 & Hlo & _).
    set (p := digits10 (N / D)) in *.
    rewrite (pow10_one (- (p - 1))), (pow10_eq (p - 1)) by lia.
    pose proof (Z.mul_div_le N D Ne). nia.
  - assert (HND : N < D).
    { destruct (Z.lt_ge_cases N D) as [G|G]; [exact G|].
      pose proof (Z.div_le_lower_bound N D 1 Ne ltac:(lia)). lia. }
    assert (He : e < 0).
    { destruct (Z.lt_ge_cases e 0) as [G|G]; [exact G|].
      unfold D, pow2 in HND. rewrite Z.max_l in HND by lia.
      change (2 ^ 0) with 1 in HND. unfold N in HND. nia. }
    assert (EN : N = m).
    { unfold N, pow2. rewrite Z.max_l by lia. change (2 ^ 0) with 1. lia. }
    rewrite EN in *.
    set (cc := (D + m - 1) / m).
    assert (Hcc : D <= m * cc).
    { pose proof (Z.div_mod (D + m - 1) m ltac:(lia)).
      pose proof (Z.mod_pos_bound (D + m - 1) m Hm). fold cc in H. lia. }
    assert (Z1 : 0 < cc - 1) by nia.
    destruct (digits10_spec (cc - 1) Z1) as (H1 & _ & Hhi).
    set (z := digits10 (cc - 1)) in *.
    replace (1 - z - 1) with (- z) by lia.
    rewrite (pow10_one (- z)), (pow10_eq (- - z)) by lia.
    rewrite Z.opp_involutive. nia.
Qed.

(** A float below [10 ^ b] has at most [b] digits before the point. *)
Lemma decade_le m e b :
  0 < m -> 0 <= b -> m * pow2 e < 10 ^ b * pow2 (- e) -> decade m e <= b.
Proof.
  intros Hm Hb Hx. pose proof (decade_lower m e Hm) as L.
  destruct (Z.le_gt_cases (decade m e) b) as [C|C]; [exact C|].
  exfalso.
  rewrite (pow10_one (- (decade m e - 1))), (pow10_eq (decade m e - 1)) in L by lia.
  assert (10 ^ b <= 10 ^ (decade m e - 1)) by (apply Z.pow_le_mono_r; lia).
  pose proof (pow2_pos (- e)). nia.
Qed.

Lemma repr_search_shape fuel : forall m e n,
  1 <= n -> n + Z.of_nat fuel <= 18 ->
  exists d, 1 <= d <= 17 /\
    snd (repr_search fuel m e n) = decade (Zpos m) e - d /\
    0 <= fst (repr_search fuel m e n) <= 10 ^ d.
Proof.
  induction fuel as [|f IH]; intros m e n Hn Hf; cbn [repr_search].
  - exists 17. cbn [fst snd]. split; [lia|]. split; [reflexivity|].
    pose proof (scaled_floor_nonneg (Zpos m) e (decade (Zpos m) e - 17) ltac:(lia)).
    pose proof (scaled_floor_digits (Zpos m) e 17 ltac:(lia) ltac:(lia)). lia.
  - destruct (repr_try m e n) as [[c k]|] eqn:E.
    + exists n. cbn [fst snd]. split; [lia|].
      pose proof (repr_try_bound m e n c k ltac:(lia) E) as B.
      split; [|exact B].
      unfold repr_try in E.
      destruct (float_eqb _ _); destruct (float_eqb _ _); try discriminate;
        now injection E as _ <-.
    + apply IH; lia.
Qed.

(** The decimal of a float below [10 ^ b] is at most [10 ^ b]. *)
Lemma repr_digits_le m e b :
  0 <= b -> Zpos m * pow2 e < 10 ^ b * pow2 (- e) ->
  num_le (fst (repr_digits m e)) (snd (repr_digits m e)) 1 b.
Proof.
  intros Hb Hx. unfold repr_digits.
  destruct (repr_search_shape 17 m e 1 ltac:(lia) ltac:(cbn; lia))
    as (d & Hd & Hk & Hc).
  pose proof (decade_le (Zpos m) e b ltac:(lia) Hb Hx) as Hp.
  set (c := fst (repr_search 17 m e 1)) in *.
  set (k := snd (repr_search 17 m e 1)) in *.
  set (E := Z.min k 0).
  apply (num_le_scale c k 1 b E); try (unfold E; lia).
  assert (P : 0 < 10 ^ (k - E)) by (apply Z.pow_pos_nonneg; unfold E; lia).
  apply Z.le_trans with (10 ^ d * 10 ^ (k - E)); [nia|].
  rewrite <- Z.pow_add_r, Z.mul_1_l by (unfold E; lia).
  apply Z.pow_le_mono_r; unfold E; lia.
Qed.

Lemma num_le_trans c1 k1 c2 k2 c3 k3 :
  num_le c1 k1 c2 k2 -> num_le c2 k2 c3 k3 -> num_le c1 k1 c3 k3.
Proof.
  intros H12 H23. set (E := Z.min k1 (Z.min k2 k3)).
  apply (num_le_scale _ _ _ _ E) in H12; try (unfold E; lia).
  apply (num_le_scale _ _ _ _ E) in H23; try (unfold E; lia).
  apply (num_le_scale _ _ _ _ E); try (unfold E; lia).
  lia.
Qed.

(** Subtracting a non-negative decimal from one of at most 18 digits does
    not raise it. *)
Lemma dec_sub_nonneg_le c k a j :
  Z.abs c <= 10 ^ 17 -> 0 <= a ->
  exists c1 k1, dec_sub (Dnum c k) (Dnum a j) = Ok (Dnum c1 k1) /\
                num_le c1 k1 c k.
Proof.
  intros Hc Ha. cbn [dec_sub dec_neg dec_add].
  set (kk := Z.min k j).
  destruct (dec_fix_value (c * pow10 (k - kk) + - a * pow10 (j - kk))
              kk kk ltac:(lia)) as (c1 & k1 & -> & Hk1 & V).
  exists c1, k1. split; [reflexivity|].
  apply (num_le_scale c1 k1 c k kk); try lia.
  rewrite V, Z.sub_diag, Z.mul_1_r.
  rewrite <- (round_sig_shift c (k - kk)); try lia.
  - apply round_sig_mono. rewrite pow10_eq by lia.
    pose proof (pow10_pos (j - kk)). nia.
  - apply digits10_le; [unfold Dprec; lia|].
    assert (10 ^ 17 < 10 ^ Dprec) by (vm_compute; reflexivity). lia.
Qed.

Lemma dec_fix_num_nonneg c k :
  0 <= c -> exists f j, dec_fix c k = Dnum f j /\ 0 <= f.
Proof.
  intros Hc. pose proof (dec_fix_nonneg c k Hc) as H.
  destruct (dec_fix_value c k k ltac:(lia)) as (f & j & E & _ & _).
  rewrite E in H. exists f, j. split; [exact E | exact H].
Qed.

(** A hundredth of a non-negative decimal is a non-negative decimal. *)
Lemma dec_div_100_nonneg c k :
  0 <= c ->
  exists f j, dec_div (Dnum c k) (Dnum 100 0) = Ok (Dnum f j) /\ 0 <= f.
Proof.
  intros Hc. cbn [dec_div]. change (100 =? 0) with false. cbn iota.
  destruct (Z.eqb_spec c 0) as [->|Hc0].
  - exists 0, (k - 0). split; [reflexivity | lia].
  - cbv zeta.
    set (shift := digits10 (Z.abs 100) - digits10 (Z.abs c) + Dprec + 1).
    set (n := Z.abs c * pow10 shift).
    set (d := Z.abs 100 * pow10 (- shift)).
    assert (Hq : 0 <= n / d).
    { pose proof (pow10_pos shift). pose proof (pow10_pos (- shift)).
      apply Z.div_pos; unfold n, d; change (Z.abs 100) with 100; nia. }
    set (q := if n mod d =? 0 then n / d
              else if (n / d) mod 5 =? 0 then n / d + 1 else n / d).
    assert (Hq' : 0 <= q).
    { unfold q. destruct (n mod d =? 0); [|destruct (_ =? 0)]; lia. }
    destruct (dec_fix_num_nonneg (Z.sgn c * Z.sgn 100 * q) (k - 0 - shift))
      as (f & j & -> & Hf).
    + rewrite Z.sgn_pos by lia. change (Z.sgn 100) with 1. lia.
    + exists f, j. split; [reflexivity | exact Hf].
Qed.

End Totality.

Section TotalityOfTotal.

Lemma quantize_coeff f j E :
  0 <= f -> E <= j -> E <= -2 ->
  (if -2 <=? j then Z.abs f * pow10 (j - -2)
   else rhu_div (Z.abs f) (pow10 (-2 - j))) =
  rhu_div (f * 10 ^ (j - E)) (10 ^ (-2 - E)).
Proof.
  intros Hf Hj HE. rewrite Z.abs_eq by lia.
  assert (P2 : 0 < 10 ^ (-2 - E)) by (apply Z.pow_pos_nonneg; lia).
  destruct (Z.leb_spec (-2) j) as [C|C].
  - rewrite pow10_eq by lia.
    replace (j - E) with (j - -2 + (-2 - E)) by lia.
    rewrite Z.pow_add_r, Z.mul_assoc by lia.
    now rewrite rhu_div_exact.
  - rewrite pow10_eq by lia.
    replace (-2 - E) with (-2 - j + (j - E)) by lia.
    rewrite Z.pow_add_r by lia.
    assert (0 < 10 ^ (-2 - j)) by (apply Z.pow_pos_nonneg; lia).
    assert (0 < 10 ^ (j - E)) by (apply Z.pow_pos_nonneg; lia).
    now rewrite rhu_div_scale.
Qed.

(** Below [10 ^ 20] before tax, the tax and the rounding to cents stay
    within the 28 digits of the context. *)
Lemma taxed_total_returns c k :
  num_le c k 1 20 -> exists t, taxed_total (Dnum c k) = Ok t.
Proof.
  intros Hle. unfold taxed_total. rewrite dec_lt_zero. cbn [bind].
  set (x := if c <? 0 then Dnum 0 0 else Dnum c k).
  assert (Hx : exists a j, x = Dnum a j /\ 0 <= a /\ num_le a j 1 20).
  { unfold x. destruct (Z.ltb_spec c 0).
    - exists 0, 0. repeat split; [lia|]. unfold num_le.
      pose proof (pow10_pos (20 - 0)). lia.
    - exists c, k. repeat split; assumption. }
  destruct Hx as (a & j & -> & Ha & Hle'). cbn [dec_mul bind].
  set (E := Z.min (j + -3) (-2)).
  destruct (dec_fix_value (a * 1085) (j + -3) E ltac:(lia))
    as (f & e' & -> & He & V).
  assert (PE : 0 < 10 ^ (e' - E)) by (apply Z.pow_pos_nonneg; lia).
  assert (PJ : 0 < 10 ^ (j + -3 - E)) by (apply Z.pow_pos_nonneg; lia).
  assert (HF : 0 <= f * 10 ^ (e' - E) <= 1085 * 10 ^ (17 - E)).
  { rewrite V. split; [apply round_sig_nonneg; nia|].
    rewrite <- (round_sig_shift 1085 (17 - E)) by (try lia; vm_compute; discriminate).
    apply round_sig_mono.
    apply (num_le_scale a j 1 20 (E + 3)) in Hle'; try lia.
    replace (j + -3 - E) with (j - (E + 3)) by lia.
    replace (17 - E) with (20 - (E + 3)) by lia. lia. }
  assert (Hf : 0 <= f) by nia.
  assert (HB : f * 10 ^ (e' - E) < 10 ^ 23 * 10 ^ (-2 - E)).
  { rewrite <- Z.pow_add_r by lia. replace (23 + (-2 - E)) with (4 + (17 - E)) by lia.
    rewrite Z.pow_add_r by lia.
    assert (0 < 10 ^ (17 - E)) by (apply Z.pow_pos_nonneg; lia).
    change (10 ^ 4) with 10000. lia. }
  cbn [quantize].
  destruct (Z.eqb_spec f 0) as [->|Hf0]; [eexists; reflexivity|].
  assert (D1 : digits10 (Z.abs f) + e' <= 21).
  { rewrite Z.abs_eq by lia.
    pose proof (digits10_shift f (e' - E) ltac:(lia) ltac:(lia)) as S.
    assert (B : digits10 (f * 10 ^ (e' - E)) <= 21 - E).
    { apply digits10_le; [lia|].
      replace (21 - E) with (23 + (-2 - E)) by lia.
      rewrite Z.pow_add_r by lia. exact HB. }
    lia. }
  replace (Dprec <? digits10 (Z.abs f) + e' - -2) with false
    by (symmetry; apply Z.ltb_ge; unfold Dprec; lia).
  rewrite (quantize_coeff f e' E) by lia.
  assert (P2 : 0 < 10 ^ (-2 - E)) by (apply Z.pow_pos_nonneg; lia).
  pose proof (rhu_div_bounds (f * 10 ^ (e' - E)) (10 ^ (-2 - E)) P2) as [_ R].
  pose proof (Z.div_lt_upper_bound (f * 10 ^ (e' - E)) (10 ^ (-2 - E)) (10 ^ 23) P2
                ltac:(lia)) as Q.
  set (r := rhu_div (f * 10 ^ (e' - E)) (10 ^ (-2 - E))) in *.
  assert (D2 : digits10 r <= Dprec).
  { apply digits10_le; [unfold Dprec; lia|].
    assert (10 ^ 23 < 10 ^ Dprec) by (vm_compute; reflexivity). lia. }
  replace (Dprec <? digits10 r) with false by (symmetry; apply Z.ltb_ge; exact D2).
  eexists. reflexivity.
Qed.

Lemma Decimal_str_plain x :
  nonneg_finite x -> below_pow10 20 x ->
  exists c k, Decimal (str x) = Dnum c k /\ 0 <= c <= 10 ^ 17 /\
              num_le c k 1 20.
Proof.
  destruct x as [s| | |[] m e]; cbn [nonneg_finite below_pow10]; try tauto.
  - intros _ _. exists 0, 0. unfold str. cbn [Decimal].
    split; [destruct s; reflexivity|]. split; [lia|].
    unfold num_le. pose proof (pow10_pos (20 - 0)). lia.
  - intros _ Hb. unfold str.
    pose proof (repr_digits_bound m e) as B.
    pose proof (repr_digits_le m e 20 ltac:(lia) Hb) as L.
    destruct (repr_digits m e) as [c k]. cbn [fst snd] in *. cbn [Decimal].
    exists c, k. repeat split; try lia. exact L.
Qed.

Lemma Decimal_str_nonneg x :
  nonneg_finite x -> exists c k, Decimal (str x) = Dnum c k /\ 0 <= c.
Proof.
  destruct x as [s| | |[] m e]; cbn [nonneg_finite]; try tauto; intros _.
  - exists 0, 0. unfold str. cbn [Decimal].
    split; [destruct s; reflexivity | lia].
  - unfold str. pose proof (repr_digits_bound m e) as B.
    destruct (repr_digits m e) as [c k]. cbn [fst] in B. cbn [Decimal].
    exists c, k. split; [reflexivity | lia].
Qed.

Lemma num_le_refl c k : num_le c k c k.
Proof. unfold num_le. rewrite Z.sub_diag. lia. Qed.

(** With a discount value that is finite and [>= 0], the discount step
    returns an amount that is not above the subtotal. *)
Lemma discounted_returns c k d :
  0 <= c <= 10 ^ 17 ->
  (forall di, d = Some di -> nonneg_finite (value di)) ->
  exists c1 k1, discounted (Dnum c k) d = Ok (Dnum c1 k1) /\ num_le c1 k1 c k.
Proof.
  intros Hc Hd. destruct d as [di|]; cbn [discounted].
  2:{ exists c, k. split; [reflexivity | apply num_le_refl]. }
  destruct (Decimal_str_nonneg (value di) (Hd di eq_refl))
    as (cv & kv & -> & Hcv).
  destruct (String.eqb (type di) "percentage").
  - destruct (dec_div_100_nonneg cv kv Hcv) as (f & j & -> & Hf).
    cbn [bind dec_mul].
    destruct (dec_fix_num_nonneg (c * f) (k + j) ltac:(nia))
      as (a & ja & -> & Ha).
    cbn [bind]. apply dec_sub_nonneg_le; lia.
  - destruct (String.eqb (type di) "fixed").
    + apply dec_sub_nonneg_le; lia.
    + exists c, k. split; [reflexivity | apply num_le_refl].
Qed.

(** On a cart whose raw subtotal is a float in [0, 10 ^ 20) and whose
    discount value, if any, is a finite float [>= 0], [get_total] returns,
    and what it returns is [>= 0]. *)
Lemma get_total_returns self :
  nonneg_finite (_calculate_raw_subtotal self) ->
  below_pow10 20 (_calculate_raw_subtotal self) ->
  (forall d, discount self = Some d -> nonneg_finite (value d)) ->
  exists t, get_total self = Ok t /\ fle fzero t = true.
Proof.
  intros Hn Hb Hd. rewrite get_total_steps.
  destruct (Decimal_str_plain _ Hn Hb) as (c & k & -> & Hc & Hle).
  destruct (discounted_returns c k (discount self) Hc Hd)
    as (c1 & k1 & -> & Hle1).
  cbn [bind].
  destruct (taxed_total_returns c1 k1 (num_le_trans _ _ _ _ _ _ Hle1 Hle))
    as (t & Ht).
  exists t. split; [exact Ht | now apply (taxed_total_nonneg (Dnum c1 k1))].
Qed.

End TotalityOfTotal.


(** ** The cases of [test_shopping_cart.py] *)

Section Tests.

Example test_new_cart_is_empty : get_item_count __init__ = 0.
Proof. reflexivity. Qed.

Example test_add_same_item_multiple_times_combines_quantity :
  get_item_count
    (run __init__ [apple; AddItem "Apple" (float_lit 150 (-2)) (float_lit 3 0)]) = 1.
Proof. vm_compute. reflexivity. Qed.

Example test_remove_nonexistent_item_does_nothing :
  get_item_count (run __init__ [apple; RemoveItem "Banana"]) = 1.
Proof. vm_compute. reflexivity. Qed.

Example test_subtotal_multiple_items :
  get_subtotal
    (run __init__ [apple; AddItem "Banana" (float_lit 75 (-2)) (float_lit 4 0)]) =
    float_lit 600 (-2).
Proof. vm_compute. reflexivity. Qed.

Example test_total_with_tax_no_discount :
  get_total (run __init__ [AddItem "Apple" (float_lit 1000 (-2)) (float_lit 1 0)]) =
    Ok (float_lit 1085 (-2)).
Proof. vm_compute. reflexivity. Qed.

Example test_empty_cart_has_zero_total :
  get_subtotal __init__ = float_lit 0 (-2) /\ get_total __init__ = Ok (float_lit 0 (-2)).
Proof. split; vm_compute; reflexivity. Qed.

(** 45.00 after the discount, 48.825 after tax: the midpoint goes up. *)
Example test_apply_fixed_amount_discount :
  get_total (run __init__ [AddItem "Item" (float_lit 5000 (-2)) (float_lit 1 0);
                       ApplyDiscount "5OFF" "fixed" (float_lit 500 (-2))]) =
    Ok (float_lit 4883 (-2)).
Proof. vm_compute. reflexivity. Qed.

Example test_percentage_discount_on_multiple_items :
  get_total (run __init__ [AddItem "Item1" (float_lit 5000 (-2)) (float_lit 1 0);
                       AddItem "Item2" (float_lit 3000 (-2)) (float_lit 1 0);
                       ApplyDiscount "SAVE10" "percentage" (float_lit 10 0)]) =
    Ok (float_lit 7812 (-2)).
Proof. vm_compute. reflexivity. Qed.

Example test_negative_quantity_raises_error :
  fst (add_item __init__ "Apple" (float_lit 150 (-2)) (float_lit (-1) 0)) =
    Raise (ValueError "Quantity must be greater than zero").
Proof. vm_compute. reflexivity. Qed.

Example test_zero_quantity_raises_error :
  fst (add_item __init__ "Apple" (float_lit 150 (-2)) (float_lit 0 0)) =
    Raise (ValueError "Quantity must be greater than zero").
Proof. vm_compute. reflexivity. Qed.

(** [0.1 * 3] is the float 0.30000000000000004, and [round] brings it back
    to 0.3. *)
Example test_floating_point_precision :
  _calculate_raw_subtotal
    (run __init__ [AddItem "Item" (float_lit 1 (-1)) (float_lit 3 0)]) =
    float_lit 30000000000000004 (-17) /\
  get_subtotal (run __init__ [AddItem "Item" (float_lit 1 (-1)) (float_lit 3 0)]) =
    float_lit 30 (-2).
Proof. split; vm_compute; reflexivity. Qed.

(** [2.99 * 2.5] is the float 7.4750000000000005, above the midpoint. *)
Example test_cart_with_fractional_quantities :
  get_subtotal
    (run __init__ [AddItem "Apples" (float_lit 299 (-2)) (float_lit 25 (-1))]) =
    float_lit 748 (-2).
Proof. vm_compute. reflexivity. Qed.

(** The subtotal is 1139.96; 15% off leaves 968.966 and the tax makes
    1051.32811, so the total is 1051.33 (the test file expects 1051.87,
    from 969.466 in its comment). *)
Example test_full_shopping_scenario :
  get_subtotal cart_full_scenario = float_lit 113996 (-2) /\
  get_total cart_full_scenario = Ok (float_lit 105133 (-2)).
Proof. split; vm_compute; reflexivity. Qed.

End Tests.

(** * The claims *)

(** C1: [get_total] takes the raw subtotal from float arithmetic, and the
    rounding of the float product reaches the result.
    - Three units at 0.3333333333333333: the float product is 1.0 and
      [get_total] gives 1.09 (1.085, a midpoint); the exact rules give 1.08,
      on the exact values of the floats and on the decimals written.
    - Three units at 0.70 with 1.10 off: the float product is
      2.0999999999999996 and [get_total] gives 1.08; on the decimals written
      the exact rules give 1.00 before tax, 1.085 after, 1.09 rounded.
    - With the integers of [cart_wide_product], whose floats are exact,
      [get_total] gives 4.34 where the exact rules give 5.43. *)
Theorem get_total_float_intermediate :
  (_calculate_raw_subtotal cart_three_thirds = float_lit 1 0 /\
   get_total cart_three_thirds = Ok (float_lit 109 (-2)) /\
   (Spec.total (exact_items cart_three_thirds) None == 108 # 100)%Q /\
   (Spec.total [(3333333333333333 # 10000000000000000, 3)] None
    == 108 # 100)%Q /\
   float_lit 109 (-2) <> float_lit 108 (-2)) /\
  (get_total cart_three_at_070 = Ok (float_lit 108 (-2)) /\
   (Spec.total [(70 # 100, 3)] (Some (Spec.Fixed (110 # 100)))
    == 109 # 100)%Q) /\
  (get_total cart_wide_product = Ok (float_lit 434 (-2)) /\
   (Spec.total (exact_items cart_wide_product)
      (Some (Spec.Fixed (exact_value (float_lit 18014398777917436 0))))
    == 543 # 100)%Q /\
   float_lit 434 (-2) <> float_lit 543 (-2)).
Proof.
  repeat split; try (vm_compute; reflexivity); vm_compute; discriminate.
Qed.

(** C2: [get_subtotal] rounds with the built-in [round], ties to even on
    the binary value, not half-up on the decimal one.  The exact midpoint
    0.125 goes to 0.12, where half-up gives 0.13; and one unit at 2.675
    gives 2.67, where the exact rules give 2.68. *)
Theorem get_subtotal_builtin_round :
  _calculate_raw_subtotal cart_half_at_025 = float_lit 125 (-3) /\
  (exact_value (float_lit 125 (-3)) == 125 # 1000)%Q /\
  get_subtotal cart_half_at_025 = float_lit 12 (-2) /\
  (Spec.subtotal (exact_items cart_half_at_025) == 13 # 100)%Q /\
  float_lit 12 (-2) <> float_lit 13 (-2) /\
  get_subtotal cart_one_at_2675 = float_lit 267 (-2) /\
  (Spec.subtotal [(2675 # 1000, 1)] == 268 # 100)%Q /\
  float_lit 267 (-2) <> float_lit 268 (-2).
Proof.
  repeat split; try (vm_compute; reflexivity); vm_compute; discriminate.
Qed.

(** C3: [add_item] raises [ValueError] exactly when [price < 0] or
    [quantity <= 0]; when both hold the message is the one of the price;
    and a call that raises leaves the cart as it was. *)
Theorem add_item_validates self name p q :
  ((exists msg, fst (add_item self name p q) = Raise (ValueError msg)) <->
   (flt p fzero = true \/ fle q fzero = true)) /\
  (flt p fzero = true ->
   fst (add_item self name p q) =
     Raise (ValueError "Price cannot be negative")) /\
  (flt p fzero = false -> fle q fzero = true ->
   fst (add_item self name p q) =
     Raise (ValueError "Quantity must be greater than zero")) /\
  (forall e, fst (add_item self name p q) = Raise e ->
   snd (add_item self name p q) = self).
Proof.
  unfold add_item.
  destruct (flt p fzero) eqn:Hp; [|destruct (fle q fzero) eqn:Hq].
  - repeat split; cbn; eauto; discriminate.
  - repeat split; cbn; eauto; discriminate.
  - destruct (lookup name (items self)); cbn; repeat split;
      try discriminate; try (intros [m Hm]; discriminate);
      intros [H|H]; discriminate.
Qed.

Lemma add_item_validates_witness :
  fst (add_item __init__ "Apple" (float_lit (-150) (-2)) (float_lit (-1) 0)) =
    Raise (ValueError "Price cannot be negative").
Proof.
  apply (proj1 (proj2 (add_item_validates __init__ "Apple"
                         (float_lit (-150) (-2)) (float_lit (-1) 0)))).
  vm_compute. reflexivity.
Defined.

(** C4: whenever [get_total] returns, the float it returns is [>= 0]; it
    does return on every cart whose raw subtotal is a float in
    [0, 10 ^ 20) and whose discount value, if any, is finite and [>= 0];
    and with one item of price 10.00, quantity 1 and a fixed discount of
    50.00 it returns 0.00. *)
Theorem get_total_nonneg :
  (forall self t, get_total self = Ok t -> fle fzero t = true) /\
  (forall self,
     nonneg_finite (_calculate_raw_subtotal self) ->
     below_pow10 20 (_calculate_raw_subtotal self) ->
     (forall d, discount self = Some d -> nonneg_finite (value d)) ->
     exists t, get_total self = Ok t /\ fle fzero t = true) /\
  get_total (run __init__ [AddItem "Item" (float_lit 1000 (-2)) (float_lit 1 0);
                       ApplyDiscount "HUGE" "fixed" (float_lit 5000 (-2))]) =
    Ok (float_lit 0 (-2)).
Proof.
  split; [|split].
  - intros self t. rewrite get_total_steps.
    destruct (discounted _ (discount self)) as [s|]; cbn [bind];
      [apply taxed_total_nonneg | discriminate].
  - exact get_total_returns.
  - vm_compute. reflexivity.
Qed.

Lemma get_total_nonneg_witness :
  fle fzero (float_lit 1085 (-2)) = true.
Proof.
  apply (proj1 get_total_nonneg
           (run __init__ [AddItem "Apple" (float_lit 1000 (-2)) (float_lit 1 0)])).
  vm_compute. reflexivity.
Defined.

(** C5: after any sequence of calls the slot holds the discount of the
    last [apply_discount] among them, nothing of the earlier ones; after
    any sequence of [apply_discount] calls the items are untouched and
    [get_total] is what it is with the last discount alone; 10% and then 20%
    on one item of 100.00 give 86.80. *)
Theorem apply_discount_last_wins :
  (forall self cs, discount (run self cs) = last_discount cs (discount self)) /\
  (forall self ds d,
     let self' := run self (map discount_call (ds ++ [d])) in
     discount self' = Some d /\
     items self' = items self /\
     get_total self' =
       get_total (snd (apply_discount self (code d) (type d) (value d)))) /\
  get_total (run __init__
               [AddItem "Item" (float_lit 10000 (-2)) (float_lit 1 0);
                ApplyDiscount "SAVE10" "percentage" (float_lit 10 0);
                ApplyDiscount "SAVE20" "percentage" (float_lit 20 0)]) =
    Ok (float_lit 8680 (-2)).
Proof.
  split; [|split].
  - intros self cs. apply run_discount.
  - intros self ds d self'. subst self'.
    rewrite map_app, run_app. cbn [map].
    set (mid := run self (map discount_call ds)).
    assert (Hi : items mid = items self) by apply run_discounts_items.
    change (run mid [discount_call d])
      with (snd (apply_discount mid (code d) (type d) (value d))).
    unfold apply_discount. cbn [snd]. rewrite Hi.
    destruct d. repeat split.
  - vm_compute. reflexivity.
Qed.

(** C6: [apply_discount] never raises, whatever it is given; with a stored
    type that is neither "percentage" nor "fixed", [get_total] is what it is
    with no discount. *)
Theorem unknown_discount_is_noop self c t v :
  fst (apply_discount self c t v) = Ok tt /\
  (t <> "percentage" -> t <> "fixed" ->
   get_total (snd (apply_discount self c t v)) =
     get_total {| items := items self; discount := None |}).
Proof.
  split; [reflexivity|].
  intros Hp Hf. apply String.eqb_neq in Hp, Hf.
  rewrite !get_total_steps. unfold apply_discount, _calculate_raw_subtotal.
  cbn [snd items discount discounted type]. now rewrite Hp, Hf.
Qed.

Lemma unknown_discount_is_noop_witness :
  get_total (snd (apply_discount
                    (run __init__ [AddItem "Item" (float_lit 10000 (-2)) (float_lit 1 0)])
                    "BOGO" "bogo" (float_lit 50 0))) =
    get_total (run __init__ [AddItem "Item" (float_lit 10000 (-2)) (float_lit 1 0)]).
Proof.
  apply (proj2 (unknown_discount_is_noop
    (run __init__ [AddItem "Item" (float_lit 10000 (-2)) (float_lit 1 0)])
    "BOGO" "bogo" (float_lit 50 0))); intros H; discriminate H.
Defined.

(** C7: a valid [add_item] on a name already stored adds the quantity to
    the entry and keeps its price, whatever the price of the call; the
    other entries and the count stay; and two calls on a new name leave the
    first price with the sum of the quantities. *)
Theorem add_item_accumulates self name p q :
  flt p fzero = false -> fle q fzero = false ->
  (forall it, lookup name (items self) = Some it ->
     fst (add_item self name p q) = Ok tt /\
     lookup name (items (snd (add_item self name p q))) =
       Some {| price := price it; quantity := fadd (quantity it) q |} /\
     (forall n, n <> name ->
        lookup n (items (snd (add_item self name p q))) =
          lookup n (items self)) /\
     get_item_count (snd (add_item self name p q)) = get_item_count self) /\
  (forall p2 q2, lookup name (items self) = None ->
     flt p2 fzero = false -> fle q2 fzero = false ->
     lookup name (items (run self [AddItem name p q; AddItem name p2 q2])) =
       Some {| price := p; quantity := fadd q q2 |}).
Proof.
  intros Hp Hq. split.
  - intros it Hl. rewrite (add_item_existing _ _ _ _ _ Hl Hp Hq). cbn.
    repeat split.
    + now apply lookup_add_quantity_same.
    + intros n Hn. now apply lookup_add_quantity_other.
    + unfold get_item_count. cbn.
      now rewrite <- (length_map fst), keys_add_quantity, length_map.
  - intros p2 q2 Hl Hp2 Hq2. unfold run. cbn.
    rewrite (add_item_new _ _ _ _ Hl Hp Hq). cbn [snd].
    assert (Hl' : lookup name (items self ++
                     [(name, {| price := p; quantity := q |})]) =
                  Some {| price := p; quantity := q |}).
    { rewrite (lookup_app_None _ _ _ Hl). cbn. now rewrite String.eqb_refl. }
    rewrite (add_item_existing
               {| items := items self ++ [(name, {| price := p; quantity := q |})];
                  discount := discount self |} _ _ _ _ Hl' Hp2 Hq2).
    cbn [snd items].
    now rewrite (lookup_add_quantity_same _ _ _ _ Hl').
Qed.

Lemma add_item_accumulates_witness :
  lookup "X" (items (run __init__ [AddItem "X" (float_lit 150 (-2)) (float_lit 2 0);
                               AddItem "X" (float_lit 990 (-2)) (float_lit 3 0)])) =
    Some {| price := float_lit 150 (-2);
            quantity := fadd (float_lit 2 0) (float_lit 3 0) |}.
Proof.
  apply (proj2 (add_item_accumulates __init__ "X" (float_lit 150 (-2))
                  (float_lit 2 0) eq_refl eq_refl)); reflexivity.
Defined.

(** C8: [remove_item] never raises; afterwards the name is not stored and
    the other entries are as before; on a name that is not stored the cart,
    and so its count, subtotal and total, are unchanged. *)
Theorem remove_item_total self name :
  fst (remove_item self name) = Ok tt /\
  lookup name (items (snd (remove_item self name))) = None /\
  (forall n, n <> name ->
     lookup n (items (snd (remove_item self name))) = lookup n (items self)) /\
  discount (snd (remove_item self name)) = discount self /\
  (lookup name (items self) = None ->
     snd (remove_item self name) = self /\
     get_item_count (snd (remove_item self name)) = get_item_count self /\
     get_subtotal (snd (remove_item self name)) = get_subtotal self /\
     get_total (snd (remove_item self name)) = get_total self).
Proof.
  unfold remove_item. cbn [fst snd items discount].
  split; [reflexivity|]. split; [apply lookup_filter_same|].
  split; [intros n Hn; now apply lookup_filter_other|].
  split; [reflexivity|].
  intros Hl. rewrite (filter_absent _ _ Hl).
  destruct self; cbn. repeat split.
Qed.

Lemma remove_item_total_witness :
  snd (remove_item (run __init__ [AddItem "Apple" (float_lit 150 (-2)) (float_lit 2 0)])
                   "Banana") =
    run __init__ [AddItem "Apple" (float_lit 150 (-2)) (float_lit 2 0)].
Proof.
  apply (proj2 (proj2 (proj2 (proj2 (remove_item_total
    (run __init__ [AddItem "Apple" (float_lit 150 (-2)) (float_lit 2 0)])
    "Banana"))))).
  reflexivity.
Defined.

(** C9 as stated fails on a NaN: [nan <= 0] is false, so [add_item] stores
    a NaN quantity, and [nan > 0] is false too. *)
Lemma nan_quantity_stored :
  Forall call_floats [AddItem "Apple" (float_lit 150 (-2)) S754_nan] /\
  ~ store_invariant (run __init__ [AddItem "Apple" (float_lit 150 (-2)) S754_nan]).
Proof.
  split; [repeat constructor|].
  intros H.
  destruct (H "Apple" {| price := float_lit 150 (-2); quantity := S754_nan |}
              eq_refl) as [_ Hq].
  discriminate Hq.
Qed.

(** C9, amended: in every cart reached from the empty one by [add_item],
    [remove_item] and [apply_discount] calls whose [add_item] prices and
    quantities are not NaN, every stored item has [price >= 0] and
    [quantity > 0]. *)
Theorem store_invariant_reachable cs :
  Forall call_floats cs -> Forall call_no_nan cs ->
  store_invariant (run __init__ cs).
Proof.
  intros Hf Hn.
  assert (G : forall self,
    Forall (fun p => item_ok (snd p)) (items self) ->
    Forall (fun p => item_ok (snd p)) (items (run self cs))).
  { unfold run. induction cs as [|c cs IH]; cbn; intros self H; [exact H|].
    inversion Hf; inversion Hn; subst.
    apply IH; try assumption. now apply run_call_ok. }
  intros name it Hl. apply lookup_In in Hl.
  pose proof (G __init__ (Forall_nil _)) as HF.
  rewrite Forall_forall in HF. destruct (HF _ Hl) as [Hp Hq].
  split; [exact Hp | now apply positive_float_gt].
Qed.

Lemma store_invariant_reachable_witness :
  store_invariant
    (run __init__ [AddItem "Apple" (float_lit 150 (-2)) (float_lit 2 0);
               AddItem "Apple" (float_lit 150 (-2)) (float_lit 3 0);
               AddItem "Pear" (float_lit (-1) 0) (float_lit 3 0);
               RemoveItem "Plum";
               ApplyDiscount "SAVE10" "percentage" (float_lit 10 0)]).
Proof.
  apply store_invariant_reachable.
  - repeat constructor.
  - repeat constructor; discriminate.
Defined.

(** C10 as stated fails on a small negative value: 100.001 before tax is
    108.501085 after, which rounds to the 108.50 of the cart without
    discount; the total is not strictly higher. *)
Lemma tiny_negative_discount_same_total :
  flt (float_lit (-1) (-3)) fzero = true /\
  items cart_tiny_negative <> [] /\
  get_total cart_tiny_negative = Ok (float_lit 10850 (-2)) /\
  get_total {| items := items cart_tiny_negative; discount := None |} =
    Ok (float_lit 10850 (-2)) /\
  flt (float_lit 10850 (-2)) (float_lit 10850 (-2)) = false.
Proof.
  repeat split; try (vm_compute; reflexivity). vm_compute. discriminate.
Qed.

(** C10, amended: [apply_discount] takes a negative value without raising;
    with a fixed discount of negative value the amount before tax is not
    below the subtotal, and [get_total], when it returns, is not below the
    total of the same items without discount; nothing bounds it from above:
    5.00 added to 100.00 gives 113.93 against 108.50. *)
Theorem negative_fixed_discount self cd v :
  flt v fzero = true ->
  fst (apply_discount self cd "fixed" v) = Ok tt /\
  (forall c k d,
     Decimal (str (_calculate_raw_subtotal self)) = Dnum c k ->
     discounted (Dnum c k) (discount (snd (apply_discount self cd "fixed" v)))
       = Ok d ->
     d = Dinf false \/ exists c1 k1, d = Dnum c1 k1 /\ num_le c k c1 k1) /\
  (forall t0 t1,
     get_total {| items := items self; discount := None |} = Ok t0 ->
     get_total (snd (apply_discount self cd "fixed" v)) = Ok t1 ->
     fle t0 t1 = true) /\
  get_total (run __init__ [AddItem "Item" (float_lit 10000 (-2)) (float_lit 1 0);
                       ApplyDiscount "NEG" "fixed" (float_lit (-500) (-2))]) =
    Ok (float_lit 11393 (-2)) /\
  flt (float_lit 10850 (-2)) (float_lit 11393 (-2)) = true.
Proof.
  intros Hv. split; [reflexivity|]. split; [|split].
  - intros c k d HD. unfold apply_discount.
    cbn [snd discount discounted type value].
    change (String.eqb "fixed" "percentage") with false.
    change (String.eqb "fixed" "fixed") with true. cbn iota.
    apply negative_fixed_pre_tax; [exact Hv|].
    destruct (Decimal_str_cases (_calculate_raw_subtotal self))
      as [E|[[s E]|(c' & k' & E & Hc)]]; rewrite E in HD; try discriminate.
    now injection HD as <- <-.
  - intros t0 t1. unfold apply_discount. cbn [snd].
    now apply negative_fixed_not_lower.
  - split; vm_compute; reflexivity.
Qed.

Lemma negative_fixed_discount_witness :
  fle (float_lit 10850 (-2)) (float_lit 11393 (-2)) = true.
Proof.
  apply (proj1 (proj2 (proj2 (negative_fixed_discount
           (run __init__ [AddItem "Item" (float_lit 10000 (-2)) (float_lit 1 0)])
           "NEG" (float_lit (-500) (-2)) ltac:(vm_compute; reflexivity)))));
    vm_compute; reflexivity.
Defined.

(** * Further properties of the class *)

(** ** Names: what is stored, and how many *)

Section Names.

Implicit Types (l : list (string * item)) (name n : string) (self : cart).

Lemma lookup_app_last name l it :
  lookup name l = None -> lookup name (l ++ [(name, it)]) = Some it.
Proof.
  intros H. rewrite (lookup_app_None _ _ _ H). cbn. now rewrite String.eqb_refl.
Qed.

Lemma lookup_app_other name n l it :
  n <> name -> lookup n (l ++ [(name, it)]) = lookup n l.
Proof.
  intros Hn. induction l as [|[k i] l IH]; cbn.
  - destruct (String.eqb name n) eqn:E; [|reflexivity].
    apply String.eqb_eq in E. congruence.
  - destruct (String.eqb k n); [reflexivity | exact IH].
Qed.

Lemma filter_app_last name l it :
  lookup name l = None ->
  filter (fun p => negb (String.eqb (fst p) name)) (l ++ [(name, it)]) = l.
Proof.
  intros H. rewrite filter_app, (filter_absent _ _ H). cbn.
  rewrite String.eqb_refl. cbn. apply app_nil_r.
Qed.

(** What one call does to the entry of a name. *)
Lemma stored_run_call name self c :
  stored name (snd (run_call self c)) = live name [c] (stored name self).
Proof.
  unfold stored. destruct c as [n p q|n|cd t v]; cbn.
  - unfold add_item, accepted.
    destruct (flt p fzero); [now rewrite andb_false_r|].
    destruct (fle q fzero); [now rewrite andb_false_r|].
    cbn [negb andb]. rewrite andb_true_r.
    destruct (String.eqb_spec n name) as [->|Hn].
    + destruct (lookup name (items self)) as [it|] eqn:E; cbn [snd items].
      * now rewrite (lookup_add_quantity_same _ _ _ _ E).
      * now rewrite (lookup_app_last _ _ _ E).
    + destruct (lookup n (items self)) as [it|] eqn:E; cbn [snd items].
      * rewrite lookup_add_quantity_other by congruence. reflexivity.
      * rewrite lookup_app_other by congruence. reflexivity.
  - destruct (String.eqb_spec n name) as [->|Hn].
    + now rewrite lookup_filter_same.
    + rewrite lookup_filter_other by congruence. reflexivity.
  - reflexivity.
Qed.

Lemma stored_run name cs : forall self,
  stored name (run self cs) = live name cs (stored name self).
Proof.
  induction cs as [|c cs IH]; intros self; [reflexivity|].
  change (run self (c :: cs)) with (run (snd (run_call self c)) cs).
  rewrite IH, stored_run_call. reflexivity.
Qed.

Lemma stored_In name self :
  stored name self = true <-> In name (map fst (items self)).
Proof.
  unfold stored. pose proof (lookup_None_keys name (items self)) as H.
  destruct (lookup name (items self)).
  - split; [intros _|reflexivity].
    destruct (in_dec string_dec name (map fst (items self))) as [I|I];
      [exact I|]. apply H in I. discriminate.
  - split; [discriminate|]. intros I. exfalso. now apply H.
Qed.

Lemma live_false_unmentioned name cs :
  ~ In name (call_names cs) -> forall b, live name cs b = b.
Proof.
  unfold live. induction cs as [|c cs IH]; intros Hn b; [reflexivity|].
  cbn [fold_left]. cbn [call_names flat_map] in Hn.
  rewrite in_app_iff in Hn.
  rewrite IH by tauto.
  destruct c as [n p q|n|cd t v]; cbn in *; try reflexivity.
  - destruct (String.eqb_spec n name) as [->|]; [tauto | reflexivity].
  - destruct (String.eqb_spec n name) as [->|]; [tauto | reflexivity].
Qed.

End Names.

Section NamesTheorems.

Implicit Types (l : list (string * item)) (name n : string) (self : cart).

(** A call that is not about [n] leaves the entry of [n] as it is. *)
Lemma lookup_run_call_other n self c :
  call_name c <> Some n ->
  lookup n (items (snd (run_call self c))) = lookup n (items self).
Proof.
  intros Hc. destruct c as [k p q|k|cd t v]; cbn in *.
  - assert (Hk : n <> k) by congruence. unfold add_item.
    destruct (flt p fzero); [reflexivity|].
    destruct (fle q fzero); [reflexivity|].
    destruct (lookup k (items self)); cbn [snd items].
    + now apply lookup_add_quantity_other.
    + now apply lookup_app_other.
  - apply lookup_filter_other. congruence.
  - reflexivity.
Qed.

(** X1: after any sequence of calls a name is stored exactly when the last
    call that decides it, an accepted [add_item] or a [remove_item] of that
    name, is the [add_item]; with no such call it is stored as it was. *)
Theorem stored_by_history self cs name :
  stored name (run self cs) = live name cs (stored name self).
Proof.
  revert self. induction cs as [|c cs IH]; intros self; [reflexivity|].
  change (run self (c :: cs)) with (run (snd (run_call self c)) cs).
  rewrite IH, stored_run_call. reflexivity.
Qed.

(** X2: on a cart built from the empty one, [get_item_count] is the number
    of distinct names among the calls whose last deciding call is an
    accepted [add_item]: names, not units, and neither rejected additions
    nor removed names count. *)
Theorem get_item_count_by_history cs :
  get_item_count (run __init__ cs) =
    Z.of_nat (List.length
                (filter (fun n => live n cs false)
                        (nodup string_dec (call_names cs)))).
Proof.
  unfold get_item_count. f_equal.
  rewrite <- (length_map fst).
  set (K := map fst (items (run __init__ cs))).
  set (F := filter (fun n => live n cs false) (nodup string_dec (call_names cs))).
  assert (HK : NoDup K) by apply run_keys_NoDup.
  assert (HF : NoDup F) by (apply NoDup_filter, NoDup_nodup).
  assert (Hiff : forall x, In x K <-> In x F).
  { intros x. unfold K, F.
    rewrite <- stored_In, stored_run, filter_In, nodup_In.
    change (stored x __init__) with false.
    split; [|tauto]. intros L. split; [|exact L].
    destruct (in_dec string_dec x (call_names cs)) as [I|I]; [exact I|].
    rewrite (live_false_unmentioned _ _ I) in L. discriminate. }
  apply Nat.le_antisymm; apply NoDup_incl_length; try assumption;
    intros x Hx; now apply Hiff.
Qed.

(** X3: an accepted [add_item] of a name that is not stored, followed by
    [remove_item] of that name, gives back the cart as it was. *)
Theorem add_then_remove self name p q :
  lookup name (items self) = None -> accepted p q = true ->
  run self [AddItem name p q; RemoveItem name] = self.
Proof.
  intros Hl Ha. unfold accepted in Ha.
  apply andb_prop in Ha as [Hp Hq].
  apply negb_true_iff in Hp, Hq.
  unfold run. cbn [fold_left run_call].
  rewrite (add_item_new _ _ _ _ Hl Hp Hq). cbn [snd].
  unfold remove_item. cbn [snd items discount].
  rewrite (filter_app_last _ _ _ Hl). now destruct self.
Qed.

Lemma add_then_remove_witness :
  run (run __init__ [apple])
      [AddItem "Pear" (float_lit 80 (-2)) (float_lit 3 0); RemoveItem "Pear"] =
    run __init__ [apple].
Proof.
  apply add_then_remove; vm_compute; reflexivity.
Defined.

(** X4: [remove_item] followed by an accepted [add_item] of the same name
    stores the price and the quantity of that call, whatever was stored
    under the name before, and leaves the other names as they were. *)
Theorem remove_then_add self name p q :
  accepted p q = true ->
  lookup name (items (run self [RemoveItem name; AddItem name p q])) =
    Some {| price := p; quantity := q |} /\
  (forall n, n <> name ->
     lookup n (items (run self [RemoveItem name; AddItem name p q])) =
       lookup n (items self)).
Proof.
  intros Ha. unfold accepted in Ha.
  apply andb_prop in Ha as [Hp Hq].
  apply negb_true_iff in Hp, Hq.
  unfold run. cbn [fold_left run_call].
  set (mid := snd (remove_item self name)).
  assert (Hm : lookup name (items mid) = None) by apply lookup_filter_same.
  rewrite (add_item_new _ _ _ _ Hm Hp Hq). cbn [snd items]. split.
  - now apply lookup_app_last.
  - intros n Hn. rewrite lookup_app_other by exact Hn.
    now apply lookup_filter_other.
Qed.

Lemma remove_then_add_witness :
  lookup "Apple"
    (items (run (run __init__ [apple])
                [RemoveItem "Apple";
                 AddItem "Apple" (float_lit 199 (-2)) (float_lit 1 0)])) =
    Some {| price := float_lit 199 (-2); quantity := float_lit 1 0 |}.
Proof.
  apply (proj1 (remove_then_add (run __init__ [apple]) "Apple"
                  (float_lit 199 (-2)) (float_lit 1 0)
                  ltac:(vm_compute; reflexivity))).
Defined.

(** X5: calls that are not about a name, however many, leave the entry of
    that name, price and quantity, as it is. *)
Theorem other_names_untouched self cs n :
  Forall (fun c => call_name c <> Some n) cs ->
  lookup n (items (run self cs)) = lookup n (items self).
Proof.
  intros H. revert self. induction H as [|c cs Hc _ IH]; intros self;
    [reflexivity|].
  change (run self (c :: cs)) with (run (snd (run_call self c)) cs).
  rewrite IH. now apply lookup_run_call_other.
Qed.

Lemma other_names_untouched_witness :
  lookup "Apple"
    (items (run (run __init__ [apple])
                [AddItem "Pear" (float_lit 80 (-2)) (float_lit 3 0);
                 RemoveItem "Plum";
                 ApplyDiscount "SAVE10" "percentage" (float_lit 10 0)])) =
    lookup "Apple" (items (run __init__ [apple])).
Proof.
  apply other_names_untouched. repeat constructor; discriminate.
Defined.

Lemma entry_after_call self c name it :
  c <> RemoveItem name ->
  lookup name (items self) = Some it ->
  lookup name (items (snd (run_call self c))) =
    Some {| price := price it;
            quantity := added_quantity name [c] (quantity it) |}.
Proof.
  intros Hc Hl.
  assert (Same : Some it = Some {| price := price it; quantity := quantity it |})
    by now destruct it.
  destruct c as [k p q|k|cd t v]; cbn [added_quantity fold_left].
  - destruct (String.eqb_spec k name) as [->|Hk]; cbn [andb].
    + cbn [run_call]. unfold add_item, accepted.
      destruct (flt p fzero); cbn [negb andb snd]; [now rewrite Hl|].
      destruct (fle q fzero); cbn [negb snd]; [now rewrite Hl|].
      rewrite Hl. cbn [snd items].
      now apply lookup_add_quantity_same.
    + rewrite lookup_run_call_other by (cbn; congruence). now rewrite Hl.
  - rewrite lookup_run_call_other by (cbn; congruence). now rewrite Hl.
  - rewrite lookup_run_call_other by (cbn; discriminate). now rewrite Hl.
Qed.

(** X6: as long as a stored name is not removed, its price stays the one
    of its first insertion, whatever the later calls say, and its quantity
    is the float sum, taken from left to right in the order of the calls,
    of the quantities of the accepted [add_item] calls on the name;
    rejected calls and calls on other names change nothing of it. *)
Theorem entry_until_removed self cs name it :
  never_removed name cs ->
  lookup name (items self) = Some it ->
  lookup name (items (run self cs)) =
    Some {| price := price it;
            quantity := added_quantity name cs (quantity it) |}.
Proof.
  intros H. revert self it. induction H as [|c cs Hc _ IH]; intros self it Hl.
  - cbn. now destruct it.
  - change (run self (c :: cs)) with (run (snd (run_call self c)) cs).
    rewrite (IH _ _ (entry_after_call self c name it Hc Hl)).
    reflexivity.
Qed.

Lemma entry_until_removed_witness :
  lookup "Apple"
    (items (run (run __init__ [apple])
                [AddItem "Apple" (float_lit 999 (-2)) (float_lit 1 0);
                 AddItem "Apple" (float_lit (-1) 0) (float_lit 1 0)])) =
    Some {| price := float_lit 150 (-2);
            quantity := fadd (float_lit 2 0) (float_lit 1 0) |}.
Proof.
  apply (entry_until_removed (run __init__ [apple])
           [AddItem "Apple" (float_lit 999 (-2)) (float_lit 1 0);
            AddItem "Apple" (float_lit (-1) 0) (float_lit 1 0)]
           "Apple"
           {| price := float_lit 150 (-2); quantity := float_lit 2 0 |}).
  - repeat constructor; discriminate.
  - reflexivity.
Defined.

End NamesTheorems.

(** ** A product that is not a number *)

Section NotANumber.

Lemma fadd_nan_l y : fadd S754_nan y = S754_nan.
Proof. now destruct y. Qed.

Lemma fadd_nan_r x : fadd x S754_nan = S754_nan.
Proof. now destruct x. Qed.

Lemma sum_from_nan (l : list (string * item)) :
  fold_left (fun acc p => fadd acc (fmul (price (snd p)) (quantity (snd p))))
            l S754_nan = S754_nan.
Proof.
  induction l as [|p l IH]; cbn [fold_left]; [reflexivity|].
  now rewrite fadd_nan_l.
Qed.

Lemma sum_with_nan (l : list (string * item)) name it :
  In (name, it) l -> fmul (price it) (quantity it) = S754_nan ->
  forall acc,
    fold_left (fun acc p => fadd acc (fmul (price (snd p)) (quantity (snd p))))
              l acc = S754_nan.
Proof.
  intros Hin Hn. induction l as [|p l IH]; [destruct Hin|].
  intros acc. cbn [fold_left]. destruct Hin as [->|Hin].
  - cbn [snd]. rewrite Hn, fadd_nan_r. apply sum_from_nan.
  - now apply IH.
Qed.

Lemma dec_div_100_returns x : exists r, dec_div x (Dnum 100 0) = Ok r.
Proof.
  destruct x as [c k|s|]; cbn [dec_div]; try (eexists; reflexivity).
  change (100 =? 0) with false. cbv iota.
  destruct (c =? 0); eexists; reflexivity.
Qed.

Lemma dec_mul_nan_l y : dec_mul Dnan y = Ok Dnan.
Proof. now destruct y. Qed.

Lemma dec_sub_nan_l y : dec_sub Dnan y = Ok Dnan.
Proof. now destruct y. Qed.

Lemma discounted_nan d : discounted Dnan d = Ok Dnan.
Proof.
  destruct d as [d|]; [|reflexivity]. unfold discounted.
  destruct (String.eqb (type d) "percentage").
  - destruct (dec_div_100_returns (Decimal (str (value d)))) as [r ->].
    cbn [bind]. rewrite dec_mul_nan_l. cbn [bind]. apply dec_sub_nan_l.
  - destruct (String.eqb (type d) "fixed"); [apply dec_sub_nan_l | reflexivity].
Qed.

(** X7: one stored item whose price times quantity is not a number (a NaN
    price or quantity, or a price of zero with an infinite quantity, all
    of which [add_item] accepts) makes the raw subtotal and [get_subtotal]
    NaN and makes [get_total] raise [InvalidOperation], whatever else the
    cart holds and whatever the discount is. *)
Theorem nan_product_poisons self name it :
  In (name, it) (items self) ->
  fmul (price it) (quantity it) = S754_nan ->
  _calculate_raw_subtotal self = S754_nan /\
  get_subtotal self = S754_nan /\
  get_total self = Raise InvalidOperation.
Proof.
  intros Hin Hn.
  assert (Hr : _calculate_raw_subtotal self = S754_nan).
  { unfold _calculate_raw_subtotal. now apply (sum_with_nan _ name it). }
  split; [exact Hr|]. split.
  - unfold get_subtotal. now rewrite Hr.
  - rewrite get_total_steps, Hr.
    change (Decimal (str S754_nan)) with Dnan.
    now rewrite discounted_nan.
Qed.

Lemma nan_product_poisons_witness :
  fst (add_item (run __init__ [apple]) "Free" (float_lit 0 0)
                (S754_infinity false)) = Ok tt /\
  get_total (snd (add_item (run __init__ [apple]) "Free" (float_lit 0 0)
                           (S754_infinity false))) =
    Raise InvalidOperation.
Proof.
  split; [reflexivity|].
  apply (nan_product_poisons _ "Free"
           {| price := float_lit 0 0; quantity := S754_infinity false |}).
  - right. left. reflexivity.
  - reflexivity.
Defined.

End NotANumber.

(** ** A discount that is not negative *)

Section DiscountOrder.

(** X8: on a cart whose raw subtotal is a float in [0, 10 ^ 20), a discount
    of any type whose value is a finite float [>= 0] never makes the total
    higher: [get_total] returns with and without the discount, and the
    total with it is not above the total without it. *)
Theorem discount_not_higher its d :
  nonneg_finite (_calculate_raw_subtotal {| items := its; discount := None |}) ->
  below_pow10 20 (_calculate_raw_subtotal {| items := its; discount := None |}) ->
  nonneg_finite (value d) ->
  exists t0 t1,
    get_total {| items := its; discount := None |} = Ok t0 /\
    get_total {| items := its; discount := Some d |} = Ok t1 /\
    fle t1 t0 = true.
Proof.
  intros Hn Hb Hv. rewrite !get_total_steps. cbn [discount].
  change (_calculate_raw_subtotal {| items := its; discount := Some d |})
    with (_calculate_raw_subtotal {| items := its; discount := None |}).
  destruct (Decimal_str_plain _ Hn Hb) as (c & k & -> & Hc & Hle).
  destruct (discounted_returns c k (Some d) Hc) as (c1 & k1 & -> & Hle1).
  { now intros di [= <-]. }
  cbn [discounted bind].
  destruct (taxed_total_returns c k Hle) as (t0 & Ht0).
  destruct (taxed_total_returns c1 k1 (num_le_trans _ _ _ _ _ _ Hle1 Hle))
    as (t1 & Ht1).
  exists t0, t1. repeat split; try assumption.
  exact (taxed_total_mono _ _ _ _ _ _ Hle1 Ht1 Ht0).
Qed.

Lemma discount_not_higher_witness :
  exists t0 t1,
    get_total {| items := items (run __init__ [apple]); discount := None |} = Ok t0 /\
    get_total {| items := items (run __init__ [apple]);
                 discount := Some {| code := "SAVE10"; type := "percentage";
                                     value := float_lit 10 0 |} |} = Ok t1 /\
    fle t1 t0 = true.
Proof.
  apply discount_not_higher.
  - vm_compute. exact I.
  - vm_compute. reflexivity.
  - vm_compute. exact I.
Defined.

End DiscountOrder.

(** ** Amounts too large for the rounding to cents *)

Section Overflow.

(** With [n] digits asked the floor has [n] digits. *)
Lemma scaled_floor_lower m e n :
  0 < m -> 1 <= n -> 10 ^ (n - 1) <= scaled_floor m e (decade m e - n).
Proof.
  intros Hm Hn. pose proof (decade_lower m e Hm) as L.
  set (p := decade m e) in *. set (k := p - n).
  pose proof (pow10_split k (n - 1)) as S.
  replace (k + (n - 1)) with (p - 1) in S by (unfold k; lia).
  rewrite (pow10_one (- (n - 1))), (pow10_eq (n - 1)) in S by lia.
  unfold scaled_floor.
  pose proof (pow2_pos e). pose proof (pow2_pos (- e)).
  pose proof (pow10_pos k). pose proof (pow10_pos (- k)).
  pose proof (pow10_pos (p - 1)). pose proof (pow10_pos (- (p - 1))).
  apply Z.div_le_lower_bound; [nia|].
  apply Z.mul_le_mono_pos_r with (p := pow10 (- (p - 1))); [lia|].
  set (A := m * pow2 e) in *. set (B := pow2 (- e)) in *.
  replace (B * pow10 k * 10 ^ (n - 1) * pow10 (- (p - 1)))
    with (B * (pow10 k * 10 ^ (n - 1) * pow10 (- (p - 1)))) by ring.
  rewrite <- S. nia.
Qed.

Lemma repr_try_lower m e n c k :
  1 <= n -> repr_try m e n = Some (c, k) -> 10 ^ (n - 1) <= c.
Proof.
  intros Hn. unfold repr_try.
  pose proof (scaled_floor_lower (Zpos m) e n ltac:(lia) Hn).
  set (lo := scaled_floor (Zpos m) e (decade (Zpos m) e - n)) in *.
  destruct (float_eqb (float_of_decimal lo _) _);
    destruct (float_eqb (float_of_decimal (lo + 1) _) _);
    try discriminate.
  - destruct (_ ?= _); [destruct (Z.even lo)| |]; intros [= <- <-]; lia.
  - intros [= <- <-]; lia.
  - intros [= <- <-]; lia.
Qed.

(** The digits [str] prints: between 1 and 17 of them, the first one at the
    decade of the float. *)
Lemma repr_search_digits fuel : forall m e n,
  1 <= n -> n + Z.of_nat fuel <= 18 ->
  exists d, 1 <= d <= 17 /\
    snd (repr_search fuel m e n) = decade (Zpos m) e - d /\
    10 ^ (d - 1) <= fst (repr_search fuel m e n) <= 10 ^ d.
Proof.
  induction fuel as [|f IH]; intros m e n Hn Hf; cbn [repr_search].
  - exists 17. cbn [fst snd]. split; [lia|]. split; [reflexivity|].
    pose proof (scaled_floor_lower (Zpos m) e 17 ltac:(lia) ltac:(lia)).
    pose proof (scaled_floor_digits (Zpos m) e 17 ltac:(lia) ltac:(lia)). lia.
  - destruct (repr_try m e n) as [[c k]|] eqn:E.
    + exists n. cbn [fst snd]. split; [lia|].
      pose proof (repr_try_bound m e n c k ltac:(lia) E) as B.
      pose proof (repr_try_lower m e n c k Hn E) as L.
      split; [|lia].
      unfold repr_try in E.
      destruct (float_eqb _ _); destruct (float_eqb _ _); try discriminate;
        now injection E as _ <-.
    + apply IH; lia.
Qed.

(** A float of [10 ^ b] or more has more than [b] digits before the
    point. *)
Lemma decade_gt m e b :
  0 < m -> 0 <= b -> 10 ^ b * pow2 (- e) <= m * pow2 e -> b < decade m e.
Proof.
  intros Hm Hb Hx. pose proof (decade_upper m e Hm) as U.
  destruct (Z.lt_ge_cases b (decade m e)) as [C|C]; [exact C|]. exfalso.
  pose proof (pow2_pos e). pose proof (pow2_pos (- e)).
  assert (P : 1 <= 10 ^ b) by (apply Z.lt_pred_le, Z.pow_pos_nonneg; lia).
  destruct (Z.le_gt_cases (decade m e) 0) as [N|N].
  - rewrite (pow10_one (decade m e)) in U by lia.
    pose proof (pow10_pos (- decade m e)). nia.
  - rewrite (pow10_one (- decade m e)), (pow10_eq (decade m e)) in U by lia.
    assert (10 ^ decade m e <= 10 ^ b) by (apply Z.pow_le_mono_r; lia).
    nia.
Qed.

(** X9: without a discount, [get_total] raises [InvalidOperation] as soon
    as the raw subtotal is [10 ^ 26] or more, infinite included: the total
    rounded to cents would need more than the 28 digits of the decimal
    context. *)
Theorem get_total_overflow self :
  discount self = None ->
  _calculate_raw_subtotal self = S754_infinity false \/
  at_least_pow10 26 (_calculate_raw_subtotal self) ->
  get_total self = Raise InvalidOperation.
Proof.
  intros Hd H. rewrite get_total_steps, Hd. cbn [discounted bind].
  destruct H as [->|H]; [reflexivity|].
  destruct (_calculate_raw_subtotal self) as [s| | |[] m e];
    cbn [at_least_pow10] in H; try tauto.
  unfold str, repr_digits.
  destruct (repr_search_digits 17 m e 1 ltac:(lia) ltac:(cbn; lia))
    as (d & Hd17 & Hk & Hc).
  pose proof (decade_gt (Zpos m) e 26 ltac:(lia) ltac:(lia) H) as HD.
  destruct (repr_search 17 m e 1) as [c k]. cbn [fst snd] in *.
  cbn [Decimal]. unfold taxed_total. rewrite dec_lt_zero.
  assert (P1 : 0 < 10 ^ (d - 1)) by (apply Z.pow_pos_nonneg; lia).
  replace (c <? 0) with false by (symmetry; apply Z.ltb_ge; lia).
  cbn [bind dec_mul]. unfold dec_fix.
  assert (Habs : Z.abs (c * 1085) = c * 1085) by (apply Z.abs_eq; lia).
  rewrite Habs.
  assert (U : 10 ^ d <= 10 ^ 17) by (apply Z.pow_le_mono_r; lia).
  assert (D1 : digits10 (c * 1085) <= Dprec).
  { apply digits10_le; [unfold Dprec; lia|].
    assert (10 ^ 17 * 1085 < 10 ^ Dprec) by (vm_compute; reflexivity). lia. }
  replace (digits10 (c * 1085) <=? Dprec) with true
    by (symmetry; apply Z.leb_le; exact D1).
  cbn [bind quantize]. rewrite Habs.
  replace (c * 1085 =? 0) with false by (symmetry; apply Z.eqb_neq; lia).
  assert (D2 : d + 2 < digits10 (c * 1085)).
  { apply digits10_gt; [lia|].
    replace (d + 2) with (d - 1 + 3) by lia. rewrite Z.pow_add_r by lia.
    change (10 ^ 3) with 1000. lia. }
  replace (Dprec <? digits10 (c * 1085) + (k + -3) - -2) with true
    by (symmetry; apply Z.ltb_lt; unfold Dprec; lia).
  reflexivity.
Qed.

Lemma get_total_overflow_witness :
  get_total (run __init__ [AddItem "Yacht" (float_lit 1 26) (float_lit 1 0)]) =
    Raise InvalidOperation.
Proof.
  apply get_total_overflow; [reflexivity|].
  right. vm_compute. intros H. discriminate H.
Defined.

End Overflow.

(** ** Sums of products that are not negative *)

Section NonNegativeSums.

Lemma shr_fexp_nonneg m e l :
  0 <= m -> 0 <= shr_m (fst (shr_fexp prec emax m e l)).
Proof.
  intros Hm. unfold shr_fexp, shr.
  destruct (fexp prec emax (Zdigits2 m + e) - e) as [|p|p];
    cbn [fst]; rewrite ?shr_record_of_loc_m; try lia.
  rewrite iter_shr_1_m by (rewrite shr_record_of_loc_m; lia).
  apply Z.shiftr_nonneg. rewrite shr_record_of_loc_m. lia.
Qed.

Lemma binary_round_aux_nonneg m e l :
  0 <= m -> nonneg_float (binary_round_aux prec emax false m e l).
Proof.
  intros Hm. unfold binary_round_aux.
  pose proof (shr_fexp_nonneg m e l Hm) as Hm1.
  destruct (shr_fexp prec emax m e l) as [mrs1 e1]. cbn [fst] in Hm1.
  set (m2 := round_nearest_even (shr_m mrs1) (loc_of_shr_record mrs1)).
  assert (Hm2 : 0 <= m2).
  { pose proof (round_nearest_even_ge (shr_m mrs1) (loc_of_shr_record mrs1)).
    unfold m2. lia. }
  pose proof (shr_fexp_nonneg m2 e1 loc_Exact Hm2) as Hm3.
  destruct (shr_fexp prec emax m2 e1 loc_Exact) as [mrs3 e3].
  cbn [fst] in Hm3.
  destruct (shr_m mrs3) as [|p|p]; try lia; [exact I|].
  destruct (e3 <=? emax - prec); exact I.
Qed.

Lemma fmul_nonneg x y :
  nonneg_finite x -> nonneg_finite y -> nonneg_float (fmul x y).
Proof.
  destruct x as [sx| | |[] mx ex], y as [sy| | |[] my ey];
    cbn [nonneg_finite]; try tauto; intros _ _; unfold fmul, SFmul;
    try exact I.
  apply binary_round_aux_nonneg. lia.
Qed.

Lemma fadd_nonneg x y :
  nonneg_float x -> nonneg_float y -> nonneg_float (fadd x y).
Proof.
  destruct x as [sx|[]| |[] mx ex], y as [sy|[]| |[] my ey];
    cbn [nonneg_float]; try tauto; intros _ _; unfold fadd, SFadd;
    try exact I.
  - destruct sx, sy; exact I.
  - unfold binary_normalize. cbn [cond_Zopp].
    match goal with |- context [Zpos ?a + Zpos ?b] =>
      change (Zpos a + Zpos b) with (Zpos (a + b)) end.
    unfold binary_round, shl_align.
    destruct (fexp prec emax (Zpos (digits2_pos _) + _) - _);
      apply binary_round_aux_nonneg; lia.
Qed.

Lemma sum_nonneg (l : list (string * item)) :
  Forall (fun p => nonneg_finite (price (snd p)) /\
                   nonneg_finite (quantity (snd p))) l ->
  forall acc, nonneg_float acc ->
    nonneg_float
      (fold_left (fun acc p => fadd acc (fmul (price (snd p)) (quantity (snd p))))
                 l acc).
Proof.
  induction 1 as [|p l [Hp Hq] _ IH]; intros acc Ha; cbn [fold_left];
    [exact Ha|].
  apply IH. apply fadd_nonneg; [exact Ha | now apply fmul_nonneg].
Qed.

(** X10: when every stored price and quantity is a finite float [>= 0],
    the raw subtotal is not a NaN and not below zero (it is zero, a
    positive float, or [+inf] when a product or the sum overflows), and
    [get_subtotal] is [>= 0]. *)
Theorem subtotal_nonneg self :
  Forall (fun p => nonneg_finite (price (snd p)) /\
                   nonneg_finite (quantity (snd p))) (items self) ->
  nonneg_float (_calculate_raw_subtotal self) /\
  fle fzero (get_subtotal self) = true.
Proof.
  intros H.
  assert (R : nonneg_float (_calculate_raw_subtotal self)).
  { unfold _calculate_raw_subtotal. apply sum_nonneg; [exact H | exact I]. }
  split; [exact R|]. unfold get_subtotal.
  destruct (_calculate_raw_subtotal self) as [s|[]| |[] m e];
    cbn [nonneg_float] in R; try (exfalso; exact R).
  - now destruct s.
  - reflexivity.
  - unfold round. apply float_of_ratio_nonneg.
Qed.

Lemma subtotal_nonneg_witness :
  fle fzero (get_subtotal (run __init__ [apple])) = true.
Proof.
  apply subtotal_nonneg. vm_compute. repeat constructor.
Defined.

End NonNegativeSums.

(** ** Amounts in cents are fixed points of [round(x, 2)] *)

Section TwoDecimals.

Lemma rne_div_near n d : 0 < d -> - d <= 2 * (n - rne_div n d * d) <= d.
Proof.
  intros Hd. unfold rne_div.
  pose proof (Z.div_mod n d ltac:(lia)) as E.
  pose proof (Z.mod_pos_bound n d Hd) as B.
  set (Q := n / d) in *. set (r := n mod d) in *.
  destruct (Z.compare_spec (2 * r) d); [destruct (Z.even Q)| |]; nia.
Qed.

Lemma rne_div_unique n d q :
  0 < d -> - d < 2 * (n - q * d) < d -> rne_div n d = q.
Proof.
  intros Hd H. unfold rne_div.
  pose proof (Z.div_mod n d ltac:(lia)) as E.
  pose proof (Z.mod_pos_bound n d Hd) as B.
  set (Q := n / d) in *. set (r := n mod d) in *.
  assert (C : Q <= q <= Q + 1) by nia.
  assert (C' : q = Q \/ q = Q + 1) by lia.
  destruct C' as [->| ->]; destruct (Z.compare_spec (2 * r) d);
    first [nia | exfalso; nia].
Qed.

Lemma flt_finite_inv p e p' e' :
  flt (S754_finite false p e) (S754_finite false p' e') = true ->
  e < e' \/ (e = e' /\ Zpos p < Zpos p').
Proof.
  unfold flt, SFltb, SFcompare.
  destruct (Z.compare_spec e e') as [->|L|G]; [|left; exact L|discriminate].
  fold (Pos.compare p p').
  destruct (Pos.compare_spec p p'); try discriminate.
  intros _. right. split; [reflexivity | lia].
Qed.

Lemma fl_parts_normal a b :
  0 < a -> 0 < b -> -1074 < snd (fl_parts a b) -> 2 ^ 52 <= fst (fl_parts a b).
Proof.
  intros Ha Hb. unfold fl_parts.
  destruct (fl_man a b =? 2 ^ 53); cbn [fst snd]; intros He.
  - apply Z.le_refl.
  - now apply fl_man_normal.
Qed.

(** Below [2 ^ -7] per unit in the last place, the float nearest to
    [q / 100] is nearer to [q / 100] than to any other multiple of
    [1 / 100]. *)
Lemma fl_parts_cents q :
  0 < q -> snd (fl_parts q 100) <= -7 ->
  rne_div (fst (fl_parts q 100) * 100) (2 ^ (- snd (fl_parts q 100))) = q.
Proof.
  intros Hq. unfold fl_parts, fl_man. set (e := fl_exp q 100).
  destruct (Z.eqb_spec (rne_div (q * pow2 (- e)) (100 * pow2 e)) (2 ^ 53))
    as [C|C]; cbn [fst snd]; intros He.
  - assert (E1 : pow2 e = 1) by (unfold pow2; rewrite Z.max_l by lia; reflexivity).
    assert (E2 : pow2 (- e) = 2 * 2 ^ (- (e + 1))).
    { unfold pow2. rewrite Z.max_r by lia.
      replace (- e) with (Z.succ (- (e + 1))) by lia.
      apply Z.pow_succ_r. lia. }
    rewrite E1, E2 in C.
    pose proof (rne_div_near (q * (2 * 2 ^ (- (e + 1)))) (100 * 1) ltac:(lia)) as N.
    rewrite C in N.
    assert (P : 2 ^ 7 <= 2 ^ (- (e + 1))) by (apply Z.pow_le_mono_r; lia).
    set (P' := 2 ^ (- (e + 1))) in *.
    change (2 ^ 7) with 128 in P.
    change (2 ^ 53) with 9007199254740992 in N.
    change (2 ^ 52) with 4503599627370496.
    apply rne_div_unique; lia.
  - assert (E1 : pow2 e = 1) by (unfold pow2; rewrite Z.max_l by lia; reflexivity).
    assert (E2 : pow2 (- e) = 2 ^ (- e)).
    { unfold pow2. rewrite Z.max_r by lia. reflexivity. }
    rewrite E1, E2.
    pose proof (rne_div_near (q * 2 ^ (- e)) (100 * 1) ltac:(lia)) as N.
    assert (P : 2 ^ 7 <= 2 ^ (- e)) by (apply Z.pow_le_mono_r; lia).
    set (P' := 2 ^ (- e)) in *. set (M := rne_div (q * P') (100 * 1)) in *.
    change (2 ^ 7) with 128 in P.
    apply rne_div_unique; lia.
Qed.

(** The float nearest to [q / 100], when it lies in [0, 2 ^ 46), is a
    fixed point of [round(x, 2)]. *)
Lemma round_cents_fixed s q :
  0 <= q ->
  fle fzero (float_of_ratio s q 100) = true ->
  flt (float_of_ratio s q 100) two_pow_46 = true ->
  round (float_of_ratio s q 100) 2 = float_of_ratio s q 100.
Proof.
  intros Hq. rewrite float_of_ratio_parts.
  destruct (Z.leb_spec q 0) as [Z0|Hpos]; [reflexivity|].
  pose proof (fl_parts_cents q Hpos) as Core.
  pose proof (fl_parts_normal q 100 Hpos ltac:(lia)) as Normal.
  destruct (fl_parts q 100) as [M E] eqn:HP. cbn [fst snd] in *.
  destruct M as [|p|p]; try reflexivity.
  destruct (E <=? emax - prec) eqn:HE.
  2:{ destruct s; intros H1 H2; [discriminate H1 | discriminate H2]. }
  destruct s; [intros H1; discriminate H1|].
  intros _ Hlt. apply flt_finite_inv in Hlt.
  assert (He : E <= -7).
  { destruct Hlt as [L|[-> L]]; [lia|]. exfalso.
    specialize (Normal ltac:(lia)).
    change (2 ^ 52) with 4503599627370496 in Normal. lia. }
  specialize (Core He).
  unfold round. change (pow10 2) with 100.
  assert (E1 : pow2 E = 1) by (unfold pow2; rewrite Z.max_l by lia; reflexivity).
  assert (E2 : pow2 (- E) = 2 ^ (- E)).
  { unfold pow2. rewrite Z.max_r by lia. reflexivity. }
  rewrite E1, E2, Z.mul_1_r, Core.
  rewrite float_of_ratio_parts, HP. cbn [fst snd]. rewrite HE.
  now replace (q <=? 0) with false by (symmetry; apply Z.leb_gt; exact Hpos).
Qed.

(** What [get_total] returns is the float of a non-negative number of
    cents. *)
Lemma taxed_total_cents s t :
  taxed_total s = Ok t -> exists q, 0 <= q /\ t = float_of_ratio false q 100.
Proof.
  unfold taxed_total.
  destruct (dec_lt s (Dnum 0 0)) as [b|] eqn:Hlt; cbn [bind]; [|discriminate].
  apply clamp_nonneg in Hlt.
  destruct (if b then Dnum 0 0 else s) as [c k|neg|]; cbn [dec_nonneg] in Hlt;
    [| subst neg; cbn; discriminate | tauto].
  cbn [dec_mul bind].
  pose proof (dec_fix_nonneg (c * 1085) (k + -3) ltac:(lia)) as Hf.
  destruct (quantize (dec_fix (c * 1085) (k + -3)) (-2)) as [r|] eqn:Hq;
    cbn [bind]; [|discriminate].
  destruct (quantize_nonneg _ _ _ Hf Hq) as (c' & -> & Hc').
  intros [= <-]. exists c'. split; [exact Hc'|].
  cbn [float_of_Decimal]. unfold float_of_decimal.
  replace (c' <? 0) with false by (symmetry; apply Z.ltb_ge; exact Hc').
  rewrite Z.abs_eq by exact Hc'.
  change (pow10 (-2)) with 1. change (pow10 (- -2)) with 100.
  now rewrite Z.mul_1_r.
Qed.

(** X11: a total below [2 ^ 46] (about 7.03e13) has two decimals as far as
    a float can: [round(total, 2)] is the total itself, for every cart and
    every discount. *)
Theorem total_two_decimals self t :
  get_total self = Ok t -> flt t two_pow_46 = true -> round t 2 = t.
Proof.
  rewrite get_total_steps.
  destruct (discounted _ _) as [s|]; cbn [bind]; [|discriminate].
  intros Ht Hlt. pose proof (taxed_total_nonneg _ _ Ht) as Hge.
  destruct (taxed_total_cents _ _ Ht) as (q & Hq & ->).
  now apply round_cents_fixed.
Qed.

Lemma total_two_decimals_witness :
  round (float_lit 105133 (-2)) 2 = float_lit 105133 (-2).
Proof.
  apply (total_two_decimals cart_full_scenario).
  - vm_compute. reflexivity.
  - vm_compute. reflexivity.
Defined.

(** X12: [get_subtotal] is idempotent under the rounding it applies: a
    subtotal in [0, 2 ^ 46) is left as it is by another [round(x, 2)]. *)
Theorem subtotal_two_decimals self :
  fle fzero (get_subtotal self) = true ->
  flt (get_subtotal self) two_pow_46 = true ->
  round (get_subtotal self) 2 = get_subtotal self.
Proof.
  unfold get_subtotal.
  destruct (_calculate_raw_subtotal self) as [s|s| |s m e]; try reflexivity.
  unfold round at 1 2 4. change (pow10 2) with 100.
  apply round_cents_fixed. apply rne_div_nonneg; [|apply pow2_pos].
  pose proof (pow2_pos e). lia.
Qed.

Lemma subtotal_two_decimals_witness :
  round (get_subtotal cart_full_scenario) 2 = get_subtotal cart_full_scenario.
Proof.
  apply subtotal_two_decimals; vm_compute; reflexivity.
Defined.

End TwoDecimals.

(** ** Nothing to pay for *)

Section ZeroSubtotal.

Lemma taxed_total_nonpos c k : c <= 0 -> taxed_total (Dnum c k) = Ok fzero.
Proof.
  intros Hc. unfold taxed_total. rewrite dec_lt_zero. cbn [bind].
  destruct (Z.ltb_spec c 0) as [N|N]; [reflexivity|].
  assert (c = 0) as -> by lia.
  cbn [dec_mul bind]. change (0 * 1085) with 0. unfold dec_fix.
  change (digits10 (Z.abs 0) <=? Dprec) with true. cbv iota.
  reflexivity.
Qed.

(** X13: a cart whose raw subtotal is 0.0 (an empty cart, or one of free
    items) has the total 0.0 under every discount whose value is a finite
    float [>= 0]: the discount step cannot bring the amount above zero,
    and an amount below zero is clamped. *)
Theorem zero_subtotal_zero_total self :
  _calculate_raw_subtotal self = fzero ->
  (forall d, discount self = Some d -> nonneg_finite (value d)) ->
  get_total self = Ok fzero.
Proof.
  intros H Hd. rewrite get_total_steps, H.
  change (Decimal (str fzero)) with (Dnum 0 0).
  destruct (discounted_returns 0 0 (discount self) ltac:(lia) Hd)
    as (c1 & k1 & -> & Hle).
  cbn [bind]. apply taxed_total_nonpos.
  unfold num_le in Hle. pose proof (pow10_pos (k1 - 0)). nia.
Qed.

Lemma zero_subtotal_zero_total_witness :
  get_total (run __init__ [AddItem "Sample" (float_lit 0 0) (float_lit 3 0);
                       ApplyDiscount "5OFF" "fixed" (float_lit 500 (-2))]) =
    Ok fzero.
Proof.
  apply zero_subtotal_zero_total.
  - reflexivity.
  - intros d [= <-]. vm_compute. exact I.
Defined.

End ZeroSubtotal.

(** ** Without a discount the decimal steps are exact *)

Section ExactTotal.

Lemma rhu_div_floor n d : 0 < d -> rhu_div n d = (2 * n + d) / (2 * d).
Proof.
  intros Hd. unfold rhu_div.
  pose proof (Z.div_mod n d ltac:(lia)) as E.
  pose proof (Z.mod_pos_bound n d Hd) as B.
  set (q := n / d) in *. set (r := n mod d) in *.
  destruct (Z.ltb_spec (2 * r) d).
  - apply (Z.div_unique _ _ q (2 * r + d)); lia.
  - apply (Z.div_unique _ _ (q + 1) (2 * r - d)); lia.
Qed.

Lemma inject_Z_nonzero z : z <> 0 -> ~ (inject_Z z == 0)%Q.
Proof. unfold Qeq. cbn. lia. Qed.

Lemma inject_Z_ratio_nonneg a b :
  0 <= a -> 0 < b -> (0 <= inject_Z a / inject_Z b)%Q.
Proof.
  intros Ha Hb. apply Qle_shift_div_l.
  - change 0%Q with (inject_Z 0). rewrite <- Zlt_Qlt. exact Hb.
  - rewrite Qmult_0_l. change 0%Q with (inject_Z 0). rewrite <- Zle_Qle. exact Ha.
Qed.

(** The rules of the specification on one amount [a / b >= 0] and no
    discount: the cents are [rhu_div] of the amount with tax. *)
Lemma spec_total_cents a b n d :
  0 <= a -> 0 < b -> 0 < d -> a * 1085 * d = n * (b * 10) ->
  (Spec.total [(inject_Z a / inject_Z b, 1)] None ==
   inject_Z (rhu_div n d) / 100)%Q.
Proof.
  intros Ha Hb Hd Heq.
  pose proof (inject_Z_ratio_nonneg a b Ha Hb) as Hv.
  set (v := (inject_Z a / inject_Z b)%Q) in *.
  unfold Spec.total, Spec.rawSubtotal. cbn [fold_right fst snd].
  assert (H0 : (0 <= v * 1 + 0)%Q).
  { rewrite Qmult_1_r, Qplus_0_r. exact Hv. }
  assert (H1 : Qle_bool 0 (v * 1 + 0) = true) by (apply Qle_bool_iff; exact H0).
  rewrite H1.
  assert (H2 : Qle_bool 0 ((v * 1 + 0) * (1 + (85 # 1000))) = true).
  { apply Qle_bool_iff. apply Qmult_le_0_compat; [exact H0 | discriminate]. }
  unfold Spec.round_half_up. rewrite H2.
  assert (F : Qfloor ((v * 1 + 0) * (1 + (85 # 1000)) * 100 + (1 # 2)) =
              rhu_div n d).
  { rewrite rhu_div_floor by exact Hd. rewrite Zdiv_Qdiv.
    apply Qfloor_comp.
    rewrite inject_Z_plus, !inject_Z_mult.
    assert (Nb : ~ (inject_Z b == 0)%Q) by (apply inject_Z_nonzero; lia).
    assert (Nd : ~ (inject_Z d == 0)%Q) by (apply inject_Z_nonzero; lia).
    assert (R : (inject_Z a * inject_Z 1085 * inject_Z d ==
                 inject_Z n * (inject_Z b * inject_Z 10))%Q).
    { rewrite <- !inject_Z_mult. now rewrite Heq. }
    assert (L : (inject_Z a / inject_Z b * inject_Z 1085 / inject_Z 10 ==
                 inject_Z n / inject_Z d)%Q).
    { transitivity (inject_Z a * inject_Z 1085 * inject_Z d /
                    (inject_Z b * inject_Z 10 * inject_Z d))%Q.
      - field. repeat split; try assumption; discriminate.
      - rewrite R. field. repeat split; try assumption; discriminate. }
    transitivity (inject_Z a / inject_Z b * inject_Z 1085 / inject_Z 10
                  + (1 # 2))%Q.
    - unfold v. field. exact Nb.
    - rewrite L. field. exact Nd. }
  rewrite F. reflexivity.
Qed.

(** On an amount in [0, 10 ^ 20] the tax and the rounding to cents lose
    nothing. *)
Lemma taxed_total_exact c k :
  0 <= c <= 10 ^ 17 -> num_le c k 1 20 ->
  taxed_total (Dnum c k) =
    Ok (float_of_decimal
          (rhu_div (c * 1085 * 10 ^ (k + -3 - Z.min (k + -3) (-2)))
                   (10 ^ (-2 - Z.min (k + -3) (-2)))) (-2)).
Proof.
  intros Hc Hle. destruct (taxed_total_returns c k Hle) as (t & Ht).
  rewrite Ht. revert Ht. unfold taxed_total. rewrite dec_lt_zero.
  replace (c <? 0) with false by (symmetry; apply Z.ltb_ge; lia).
  cbn [bind dec_mul]. unfold dec_fix.
  assert (D1 : digits10 (Z.abs (c * 1085)) <= Dprec).
  { rewrite Z.abs_eq by lia. apply digits10_le; [unfold Dprec; lia|].
    assert (10 ^ 17 * 1085 < 10 ^ Dprec) by (vm_compute; reflexivity). lia. }
  replace (digits10 (Z.abs (c * 1085)) <=? Dprec) with true
    by (symmetry; apply Z.leb_le; exact D1).
  destruct (quantize (Dnum (c * 1085) (k + -3)) (-2)) as [r|] eqn:Hq;
    cbn [bind]; [|discriminate].
  apply (quantize_value _ _ (Z.min (k + -3) (-2))) in Hq; try lia.
  subst r. now intros [= <-].
Qed.

(** X14: without a discount, on a raw subtotal in [0, 10 ^ 20), [get_total]
    is exact from the decimal on: it returns the float of a number of
    cents, and that number is the amount [str] prints for the raw subtotal,
    with 8.5% tax, rounded half-up to cents in exact arithmetic. *)
Theorem total_exact_without_discount self :
  discount self = None ->
  nonneg_finite (_calculate_raw_subtotal self) ->
  below_pow10 20 (_calculate_raw_subtotal self) ->
  exists cents,
    get_total self = Ok (float_of_decimal cents (-2)) /\
    (inject_Z cents / 100 ==
     Spec.total [(printed_value (_calculate_raw_subtotal self), 1%Q)] None)%Q.
Proof.
  intros Hd Hn Hb. rewrite get_total_steps, Hd. cbn [discounted bind].
  destruct (Decimal_str_plain _ Hn Hb) as (c & k & HD & Hc & Hle).
  rewrite HD, (taxed_total_exact c k Hc Hle).
  set (E := Z.min (k + -3) (-2)).
  eexists. split; [reflexivity|].
  assert (HP : printed_value (_calculate_raw_subtotal self) = dec_value c k).
  { unfold printed_value. revert HD.
    destruct (str (_calculate_raw_subtotal self)) as [neg c' k'| |];
      cbn [Decimal]; try discriminate.
    now intros [= -> ->]. }
  rewrite HP. unfold dec_value. symmetry.
  pose proof (pow10_pos k). pose proof (pow10_pos (- k)).
  apply spec_total_cents; [nia | lia | apply Z.pow_pos_nonneg; lia |].
  destruct (Z.le_gt_cases 0 k) as [K|K].
  - rewrite (pow10_eq k), (pow10_one (- k)) by lia.
    replace (c * 10 ^ k * 1085 * 10 ^ (-2 - E))
      with (c * 1085 * (10 ^ k * 10 ^ (-2 - E))) by ring.
    replace (c * 1085 * 10 ^ (k + -3 - E) * (1 * 10))
      with (c * 1085 * (10 ^ (k + -3 - E) * 10 ^ 1)) by ring.
    rewrite <- !Z.pow_add_r by lia. do 2 f_equal. lia.
  - rewrite (pow10_one k), (pow10_eq (- k)) by lia.
    replace (c * 1 * 1085 * 10 ^ (-2 - E))
      with (c * 1085 * 10 ^ (-2 - E)) by ring.
    replace (c * 1085 * 10 ^ (k + -3 - E) * (10 ^ (- k) * 10))
      with (c * 1085 * (10 ^ (k + -3 - E) * 10 ^ (- k) * 10 ^ 1)) by ring.
    rewrite <- !Z.pow_add_r by lia. do 2 f_equal. lia.
Qed.

Lemma total_exact_without_discount_witness :
  exists cents,
    get_total (run __init__ [apple]) = Ok (float_of_decimal cents (-2)) /\
    (inject_Z cents / 100 ==
     Spec.total [(printed_value (_calculate_raw_subtotal (run __init__ [apple])),
                  1%Q)] None)%Q.
Proof.
  apply total_exact_without_discount.
  - reflexivity.
  - vm_compute. exact I.
  - vm_compute. reflexivity.
Defined.

End ExactTotal.

(** ** A discount value that is not a number *)

Section NaNDiscount.

Lemma dec_mul_nan_r x : dec_mul x Dnan = Ok Dnan.
Proof. now destruct x. Qed.

Lemma dec_sub_nan_r x : dec_sub x Dnan = Ok Dnan.
Proof. now destruct x. Qed.

(** X15: [apply_discount] stores a NaN value like any other, and with it a
    discount of type "percentage" or "fixed" makes [get_total] raise
    [InvalidOperation] on every cart, the empty one included. *)
Theorem nan_discount_raises self cd t :
  t = "percentage" \/ t = "fixed" ->
  fst (apply_discount self cd t S754_nan) = Ok tt /\
  get_total (snd (apply_discount self cd t S754_nan)) = Raise InvalidOperation.
Proof.
  intros Ht. split; [reflexivity|].
  rewrite get_total_steps. unfold apply_discount. cbn [snd discount].
  change (_calculate_raw_subtotal
            {| items := items self;
               discount := Some {| code := cd; type := t; value := S754_nan |} |})
    with (_calculate_raw_subtotal self).
  set (s := Decimal (str (_calculate_raw_subtotal self))).
  assert (D : discounted s (Some {| code := cd; type := t; value := S754_nan |})
              = Ok Dnan).
  { unfold discounted. cbn [type value].
    change (Decimal (str S754_nan)) with Dnan.
    destruct Ht as [-> | ->].
    - change (String.eqb "percentage" "percentage") with true. cbv iota.
      change (dec_div Dnan (Dnum 100 0)) with (Ok Dnan). cbn [bind].
      rewrite dec_mul_nan_r. cbn [bind]. apply dec_sub_nan_r.
    - change (String.eqb "fixed" "percentage") with false.
      change (String.eqb "fixed" "fixed") with true. cbv iota.
      apply dec_sub_nan_r. }
  rewrite D. reflexivity.
Qed.

Lemma nan_discount_raises_witness :
  get_total (snd (apply_discount (run __init__ [apple]) "SAVE" "fixed" S754_nan)) =
    Raise InvalidOperation.
Proof.
  apply nan_discount_raises. right. reflexivity.
Defined.

End NaNDiscount.
